(** * transformer-mnist.py: a shallow embedding of the MNIST training script

    The script trains, evaluates, checkpoints and visualises an MNIST
    classifier.  Its control flow is embedded here as Rocq functions:

    - tensors holding metric values, scores and kernel weights are lists of
      exact rationals ([Q]); cross-entropy, the gradient step and the network's
      forward pass are those of the framework and stay abstract (Section
      variables);
    - a Python exception is [None] in the option monad;
    - the file system is a finite map from paths to parameter snapshots;
    - the [ui] helpers imported by the script ([AverageMeter], [accuracy]) are
      not part of the sources at hand and are modelled from the specification. *)

From Stdlib Require Import QArith Qminmax Lqa Lia List Bool Arith.
From stdpp Require Import base option gmap strings list.

Set Default Proof Using "Type".

(** ** Rational helpers *)

Definition Qltb (x y : Q) : bool := negb (Qle_bool y x).

Definition Qnat (n : nat) : Q := inject_Z (Z.of_nat n).

(** ** The [ui] helpers *)

Module Ui.

Local Open Scope Q_scope.

(** Modelled from the spec: [ui.AverageMeter], the running metric of the
    data model, "a (sum, count) pair, mutated by repeated update(value, weight)
    calls, read via average = sum/count".  The quotient does not exist while
    [count] is zero, which is the state before the first update. *)
Record AverageMeter : Type := { sum : Q; count : nat }.

Definition fresh : AverageMeter := {| sum := 0; count := 0 |}.

(** Modelled from the spec: "update(value, n=1) folds a new observation
    (weighted by n) into a running sum/count". *)
Definition update (m : AverageMeter) (val : Q) (n : nat) : AverageMeter :=
  {| sum := sum m + val * Qnat n; count := count m + n |}.

(** Modelled from the spec: "average = sum/count, undefined (must not be read)
    before the first update". *)
Definition avg (m : AverageMeter) : option Q :=
  if Nat.eqb (count m) 0 then None else Some (sum m / Qnat (count m)).

(** A sequence of update calls, as (value, weight) pairs, applied in order. *)
Definition updates (m : AverageMeter) (calls : list (Q * nat)) : AverageMeter :=
  fold_left (fun acc c => update acc (fst c) (snd c)) calls m.

(** The two sums of the weighted mean, written as the formula reads. *)
Fixpoint weighted_sum (calls : list (Q * nat)) : Q :=
  match calls with
  | [] => 0
  | (v, n) :: rest => v * Qnat n + weighted_sum rest
  end.

Fixpoint total_weight (calls : list (Q * nat)) : nat :=
  match calls with
  | [] => 0
  | (_, n) :: rest => n + total_weight rest
  end.

(** Position of [label] in the descending order of the scores: the number of
    classes scored strictly higher, ties going to the lower class index. *)
Fixpoint rank_from (j : nat) (scores : list Q) (s : Q) (label : nat) : nat :=
  match scores with
  | [] => 0
  | x :: rest =>
      (if Qltb s x || (Qeq_bool x s && Nat.ltb j label) then 1 else 0)%nat
      + rank_from (S j) rest s label
  end.

Definition in_topk (k : nat) (scores : list Q) (label : nat) : bool :=
  match nth_error scores label with
  | None => false
  | Some s => Nat.ltb (rank_from 0 scores s label) k
  end.

(** Number of rows of [output] whose target is among the [k] best classes. *)
Fixpoint correct_k (k : nat) (output : list (list Q)) (target : list nat) : nat :=
  match output, target with
  | row :: output', t :: target' =>
      (if in_topk k row t then 1 else 0) + correct_k k output' target'
  | _, _ => 0
  end.

(** Modelled from the spec: [ui.accuracy], top-k accuracy of one batch for each
    [k] of [topk], "the fraction of samples where the true label appears among
    the k highest-scored classes", on the percent scale of the scenario "top-1
    accuracy over exactly this batch must equal 100*matches/2".  A batch
    without samples has no accuracy. *)
Definition accuracy (output : list (list Q)) (target : list nat)
  (topk : list nat) : option (list Q) :=
  let batch_size := length target in
  if Nat.eqb batch_size 0 then None
  else Some (map (fun k => Qnat (correct_k k output target) * (100 / Qnat batch_size))
                 topk).

End Ui.

(** ** numpy arrays, as far as the visualisation uses them *)

Module Numpy.

Local Open Scope Q_scope.

(** An n-dimensional array: its shape and its entries in row-major order.
    Entries of type [option Q] hold the results of a division, [None] standing
    for numpy's [nan] and [inf]. *)
Record ndarray (A : Type) : Type := { shape : list nat; data : list A }.
Arguments shape {A} _.
Arguments data {A} _.

Definition size_of (sh : list nat) : nat := fold_right Nat.mul 1%nat sh.

Definition well_formed {A} (a : ndarray A) : bool :=
  Nat.eqb (length (data a)) (size_of (shape a)).

(** [count] consecutive blocks of [n] entries each. *)
Fixpoint chunks {A} (n count : nat) (l : list A) : list (list A) :=
  match count with
  | O => []
  | S count' => firstn n l :: chunks n count' (skipn n l)
  end.

(** [a.squeeze()]: every axis of length one is dropped. *)
Definition squeeze {A} (a : ndarray A) : ndarray A :=
  {| shape := List.filter (fun d => negb (Nat.eqb d 1)) (shape a); data := data a |}.

(** [len(a)]: the length of the first axis; a TypeError on a 0-d array. *)
Definition len {A} (a : ndarray A) : option nat :=
  match shape a with
  | [] => None
  | d :: _ => Some d
  end.

(** Python's index normalisation on an axis of length [d]: a negative index
    counts from the end, anything outside [-d, d) is an IndexError. *)
Definition normalize_index (i : Z) (d : nat) : option nat :=
  if (0 <=? i)%Z && (i <? Z.of_nat d)%Z then Some (Z.to_nat i)
  else if (- Z.of_nat d <=? i)%Z && (i <? 0)%Z then Some (Z.to_nat (i + Z.of_nat d))
  else None.

(** [a[:, j, :, :]] on a four-dimensional array: from each block of the first
    axis, the [j]-th block of the second axis. *)
Definition index_axis1 {A} (a : ndarray A) (j : Z) : option (ndarray A) :=
  match shape a with
  | [o; i; h; w] =>
      match normalize_index j i with
      | None => None
      | Some f =>
          Some {| shape := [o; h; w];
                  data := concat (map (fun blk => firstn (h * w) (skipn (f * (h * w)) blk))
                                      (chunks (i * (h * w)) o (data a))) |}
      end
  | _ => None
  end.

(** [a[j]] on a four-dimensional array: the [j]-th block of the first axis. *)
Definition index_axis0 {A} (a : ndarray A) (j : Z) : option (ndarray A) :=
  match shape a with
  | [o; i; h; w] =>
      match normalize_index j o with
      | None => None
      | Some f =>
          Some {| shape := [i; h; w];
                  data := firstn (i * (h * w)) (skipn (f * (i * (h * w))) (data a)) |}
      end
  | _ => None
  end.

(** Entry [a[o, i, y, x]] of a four-dimensional array and entry [a[o, y, x]]
    of a three-dimensional one. *)
Definition get4 {A} (a : ndarray A) (o i y x : nat) : option A :=
  match shape a with
  | [no; ni; h; w] =>
      if Nat.ltb o no && Nat.ltb i ni && Nat.ltb y h && Nat.ltb x w
      then nth_error (data a) (((o * ni + i) * h + y) * w + x)
      else None
  | _ => None
  end.

Definition get3 {A} (a : ndarray A) (o y x : nat) : option A :=
  match shape a with
  | [no; h; w] =>
      if Nat.ltb o no && Nat.ltb y h && Nat.ltb x w
      then nth_error (data a) ((o * h + y) * w + x)
      else None
  | _ => None
  end.

(** [np.amin] and [np.amax] over all entries; a ValueError on an empty array. *)
Definition amin (l : list Q) : option Q :=
  match l with
  | [] => None
  | x :: rest => Some (fold_left Qmin rest x)
  end.

Definition amax (l : list Q) : option Q :=
  match l with
  | [] => None
  | x :: rest => Some (fold_left Qmax rest x)
  end.

(** Elementwise true division by a scalar.  numpy raises nothing on a zero
    divisor: the entry becomes [nan] or [inf], here [None]. *)
Definition divide (x d : Q) : option Q :=
  if Qeq_bool d 0 then None else Some (x / d).

(** Values of magnitude at most 2^126: the difference of two of them is
    finite in single precision (the dtype of the arrays the script takes from
    the network) and in double precision alike, so the subtraction of the
    minimum does not overflow. *)
Definition finite_range (x : Q) : Prop :=
  - inject_Z (2 ^ 126) <= x <= inject_Z (2 ^ 126).

(** The rows of the first axis, as [for i, m in enumerate(maps)] visits them;
    a TypeError on a 0-d array. *)
Definition rows {A} (a : ndarray A) : option (list (ndarray A)) :=
  match shape a with
  | [] => None
  | d :: sh =>
      Some (map (fun blk => {| shape := sh; data := blk |})
                (chunks (size_of sh) d (data a)))
  end.

End Numpy.

(** ** The visualisation routine *)

Module Viz.

Import Numpy.
Local Open Scope Q_scope.

Inductive title : Type :=
  | FeatureMaps (layer : nat)                      (* "Feature maps at CNN layer %d" *)
  | KernelWeights (layer : nat) (feature_num : Z). (* "Kernel weights layer %d filter %d" *)

(** What [plot_data] hands to the plotting front-end: the subplot grid is
    [dim] by [dim], one grayscale tile per row of the normalised array. *)
Record figure : Type :=
  { fig_title : title; fig_dim : nat; fig_tiles : list (ndarray (option Q)) }.

(** Lines 148-149 of [plot_data]:
<<
    maps = maps - np.amin(maps)
    maps = maps / np.amax(maps)
>> *)
Definition shifted (maps : ndarray Q) : option (ndarray Q) :=
  lo ← amin (data maps);
  Some {| shape := shape maps; data := map (fun x => x - lo) (data maps) |}.

Definition normalized (maps : ndarray Q) : option (ndarray (option Q)) :=
  maps ← shifted maps;
  hi ← amax (data maps);
  Some {| shape := shape maps; data := map (fun x => divide x hi) (data maps) |}.

(** [plt.imshow(m)] takes a 2-D array, or a 3-D one whose last axis holds 3
    or 4 colour channels; any other shape is a TypeError. *)
Definition imshow_ok (sh : list nat) : bool :=
  match sh with
  | [_; _] => true
  | [_; _; c] => Nat.eqb c 3 || Nat.eqb c 4
  | _ => false
  end.

(** Lines 152-156, the drawing loop:
<<
    for i, m in enumerate(maps):
        ax = plt.subplot(dim, dim, i+1)
        ...
        im = plt.imshow(m, cmap="gray")
>>
    [plt.subplot(dim, dim, i+1)] is a ValueError unless
    [1 <= i+1 <= dim*dim]. *)
Fixpoint draw_tiles (dim i : nat) (tiles : list (ndarray (option Q))) : option unit :=
  match tiles with
  | [] => Some tt
  | m :: rest =>
      if Nat.leb (i + 1) (dim * dim) then
        if imshow_ok (shape m) then draw_tiles dim (S i) rest else None
      else None
  end.

(** Lines 151-160: the loop, then [fig.colorbar(im, ax=axes)], where [im] is
    unbound when the loop has drawn nothing. *)
Definition draw (dim : nat) (t : title) (tiles : list (ndarray (option Q)))
  : option figure :=
  _ ← draw_tiles dim 0 tiles;
  match tiles with
  | [] => None
  | _ :: _ => Some {| fig_title := t; fig_dim := dim; fig_tiles := tiles |}
  end.

Definition plot_data (maps : ndarray Q) (dim : nat) (t : title) : option figure :=
  maps ← normalized maps;
  tiles ← rows maps;
  draw dim t tiles.

(** The body of the loop of [viz_features] (lines 131-142) for one captured
    layer: its feature maps, then its kernel weights. *)
Definition viz_layer (feature_num : Z) (layer : nat) (maps kernel : ndarray Q)
  : option (list figure) :=
  let maps := squeeze maps in
  n ← len maps;
  let dim := Nat.sqrt n in
  fig_maps ← plot_data maps dim (FeatureMaps layer);
  kernel ← index_axis1 kernel feature_num;
  let kernel := squeeze kernel in
  n ← len kernel;
  let dim := Nat.sqrt n in
  fig_kernel ← plot_data kernel dim (KernelWeights layer feature_num);
  Some [fig_maps; fig_kernel].

Fixpoint viz_loop (feature_num : Z) (layer : nat)
  (pairs : list (ndarray Q * ndarray Q)) : option (list figure) :=
  match pairs with
  | [] => Some []
  | (maps, kernel) :: rest =>
      figs ← viz_layer feature_num layer maps kernel;
      more ← viz_loop feature_num (S layer) rest;
      Some (figs ++ more)
  end.

(** [viz_features] from line 130 on: [features] are the outputs captured by
    the forward hooks, [kernels] the weights of the convolutional layers, both
    in layer order. *)
Definition viz_features (feature_num : Z) (features kernels : list (ndarray Q))
  : option (list figure) :=
  viz_loop feature_num 0 (combine features kernels).

(** The reading of the kernel step in the specification: "that layer's kernel
    weights restricted to one selected output-feature index". *)
Definition kernel_of_output_feature (feature_num : Z) (kernel : ndarray Q)
  : option (ndarray Q) :=
  index_axis0 kernel feature_num.

(** The same sentence as a statement on one captured layer: the figure
    plotted for the kernel is the normalise-and-grid of that restriction. *)
Definition plots_output_feature (feature_num : Z) (layer : nat)
  (maps kernel : ndarray Q) : Prop :=
  exists k n fig_maps fig_kernel,
    kernel_of_output_feature feature_num kernel = Some k /\
    len (squeeze k) = Some n /\
    plot_data (squeeze k) (Nat.sqrt n) (KernelWeights layer feature_num)
    = Some fig_kernel /\
    viz_layer feature_num layer maps kernel = Some [fig_maps; fig_kernel].


(** A captured layer small enough to run: four filters over two input
    channels with 2 by 2 kernels, weights 1 to 32, and its four 2 by 2
    feature maps for one image. *)
Definition sample_kernel : ndarray Q :=
  {| shape := [4; 2; 2; 2]%nat;
     data := map (fun n => inject_Z (Z.of_nat n)) (seq 1 32) |}.

Definition sample_maps : ndarray Q :=
  {| shape := [1; 4; 2; 2]%nat;
     data := map (fun n => inject_Z (Z.of_nat n)) (seq 0 16) |}.

End Viz.

(** ** The convolutional model *)

Module CNN.

Inductive layer : Type :=
  | Conv2d (in_channels out_channels kernel_size : nat)
  | ReLU
  | MaxPool2d (kernel_size : nat)
  | Dropout (p : Q)
  | Flatten
  | Linear (in_features out_features : nat).

(** [CNNModel.__init__]: the [nn.Sequential] classifier. *)
Definition classifier (n_classes : nat) : list layer :=
  [ Conv2d 1 64 3;
    ReLU;
    MaxPool2d 2;
    Conv2d 64 64 3;
    ReLU;
    MaxPool2d 2;
    Conv2d 64 64 3;
    Dropout (2 # 10);
    Flatten;
    Linear (64 * 3 * 3) n_classes ].

Definition CNNModel : list layer := classifier 10.

(** The shape each layer gives its output, [None] where the framework rejects
    the input shape.  Convolutions and pooling take a batched, four-axis input;
    convolutions have stride one and no padding, pooling has a stride equal to
    its window and rounds down, [Flatten] keeps the batch axis, [Linear] acts
    on the last axis. *)
Definition layer_shape (l : layer) (sh : list nat) : option (list nat) :=
  match l, sh with
  | Conv2d cin cout k, [n; c; h; w] =>
      if Nat.eqb c cin && Nat.leb 1 k && Nat.leb k h && Nat.leb k w
      then Some [n; cout; h - k + 1; w - k + 1]%nat
      else None
  | Conv2d _ _ _, _ => None
  | ReLU, _ => Some sh
  | MaxPool2d k, [n; c; h; w] =>
      if Nat.leb 1 k && Nat.leb k h && Nat.leb k w
      then Some [n; c; h / k; w / k]%nat
      else None
  | MaxPool2d _, _ => None
  | Dropout _, _ => Some sh
  | Flatten, n :: rest => Some [n; Numpy.size_of rest]
  | Flatten, [] => None
  | Linear fin fout, _ =>
      match rev sh with
      | d :: lead => if Nat.eqb d fin then Some (rev (fout :: lead)) else None
      | [] => None
      end
  end.

(** [CNNModel.forward]: the layers in sequence. *)
Fixpoint forward_shape (layers : list layer) (sh : list nat) : option (list nat) :=
  match layers with
  | [] => Some sh
  | l :: rest => sh' ← layer_shape l sh; forward_shape rest sh'
  end.

Definition is_conv (l : layer) : bool :=
  match l with Conv2d _ _ _ => true | _ => false end.
Definition is_activation (l : layer) : bool :=
  match l with ReLU => true | _ => false end.
Definition is_dropout (l : layer) : bool :=
  match l with Dropout _ => true | _ => false end.
Definition is_flatten (l : layer) : bool :=
  match l with Flatten => true | _ => false end.
Definition is_linear (l : layer) : bool :=
  match l with Linear _ _ => true | _ => false end.

(** The layer that directly follows each layer satisfying [p]. *)
Fixpoint successors (p : layer -> bool) (layers : list layer) : list (option layer) :=
  match layers with
  | [] => []
  | l :: rest => (if p l then [head rest] else []) ++ successors p rest
  end.

(** "Each convolution followed by an activation", as the specification words
    the three stages. *)
Definition each_conv_activated (layers : list layer) : bool :=
  forallb (fun nxt => match nxt with Some l => is_activation l | None => false end)
          (successors is_conv layers).

(** The side a 2-D input of side [n] has left after the three convolutions
    and the two poolings of [classifier]. *)
Definition feature_side (n : nat) : nat := ((n - 2) / 2 - 2) / 2 - 2.

(** The shape of a layer's [weight], for the layers that have one:
    (out_channels, in_channels, k, k) for a convolution, (out_features,
    in_features) for a linear layer. *)
Definition weight_shape (l : layer) : option (list nat) :=
  match l with
  | Conv2d cin cout k => Some [cout; cin; k; k]
  | Linear fin fout => Some [fout; fin]
  | _ => None
  end.

End CNN.

(** ** Forward hooks *)

Section Hooks.

Context {tensor : Type}.

(** [class SaveOutput] (lines 96-104): the list of captured outputs. *)
Record SaveOutput : Type := { outputs : list tensor }.

Definition SaveOutput_init : SaveOutput := {| outputs := [] |}.

(** [__call__(self, module, module_in, module_out)] *)
Definition SaveOutput_call (s : SaveOutput) (module_out : tensor) : SaveOutput :=
  {| outputs := outputs s ++ [module_out] |}.

Definition SaveOutput_clear (s : SaveOutput) : SaveOutput := {| outputs := [] |}.

(** A layer of the model's [nn.Sequential]: what kind it is, its [weight]
    (read for convolutions only) and the function it computes. *)
Record module : Type :=
  { kind : CNN.layer; weight : tensor; forward : tensor -> tensor }.

(** Lines 107-116 of [viz_features]: the convolutional layers get the forward
    hook, and their weights are collected, in the order of [model.modules()]. *)
Definition hooked (m : module) : bool := CNN.is_conv (kind m).

Definition collect_kernels (layers : list module) : list tensor :=
  map weight (List.filter hooked layers).

Definition count_layers (layers : list module) : nat :=
  length (List.filter hooked layers).

(** The forward pass of the [nn.Sequential] with the hooks in place: each
    layer's output feeds the next, and a hooked layer's output is handed to
    [save_output]. *)
Fixpoint forward_hooked (layers : list module) (x : tensor) (s : SaveOutput)
  : tensor * SaveOutput :=
  match layers with
  | [] => (x, s)
  | m :: rest =>
      let y := forward m x in
      forward_hooked rest y (if hooked m then SaveOutput_call s y else s)
  end.

(** Lines 107-128: [n_layers], [features] and [kernels] for one image. *)
Definition viz_capture (layers : list module) (image : tensor)
  : nat * list tensor * list tensor :=
  let save_output := SaveOutput_init in
  let kernels := collect_kernels layers in
  let n_layers := count_layers layers in
  let '(pred, save_output) := forward_hooked layers image save_output in
  (n_layers, outputs save_output, kernels).

(** The input each layer of the sequence receives. *)
Fixpoint layer_inputs (layers : list module) (x : tensor) : list (module * tensor) :=
  match layers with
  | [] => []
  | m :: rest => (m, x) :: layer_inputs rest (forward m x)
  end.

End Hooks.

(** ** The framework the script runs on *)

(** What the script takes from torch: the network as a function from a
    parameter snapshot and a sample to its row of class scores (in training
    mode also of the random generator, for dropout), the loss, and the
    optimiser's step. *)
Class Framework : Type :=
  { image : Type;
    params : Type;                      (* [model.state_dict()] *)
    optim : Type;                       (* the state of [optim.Adam] *)
    rng : Type;                         (* torch's random generator *)
    eval_scores : params -> image -> list Q;
    train_scores : params -> rng -> image -> list Q;
    next_rng : rng -> rng;
    cross_entropy : list (list Q) -> list nat -> Q;
    learning_rate : optim -> Q;         (* [optimizer.param_groups[0]['lr']] *)
    (* [optimizer.zero_grad(); loss.backward(); optimizer.step()] *)
    adam_step : optim -> params -> rng -> list (image * nat) -> optim * params;
    (* the key and shape check of [load_state_dict] *)
    same_shape : params -> params -> bool }.

(** The command line of [main]. *)
Module Args.
Record t : Type :=
  { image : string;
    lr : Q;
    batch_size : Z;
    epochs : Z;
    layer_num : Z;
    feature_num : Z;
    train : bool;
    save_model : bool;
    restore_model : option string;
    normalize : bool;
    cnn : bool;
    visualize : bool }.
End Args.

(** [outputs.max(1)]: the index of the first maximal score of a row. *)
Fixpoint argmax_from (best_i : nat) (best : Q) (i : nat) (row : list Q) : nat :=
  match row with
  | [] => best_i
  | x :: rest =>
      if Qltb best x then argmax_from i x (S i) rest
      else argmax_from best_i best (S i) rest
  end.

Definition argmax (row : list Q) : nat :=
  match row with
  | [] => 0
  | x :: rest => argmax_from 0 x 1 rest
  end.

(** [predicted.eq(labels).sum().item()] *)
Fixpoint eq_sum (predicted labels : list nat) : nat :=
  match predicted, labels with
  | p :: predicted', l :: labels' =>
      (if Nat.eqb p l then 1 else 0) + eq_sum predicted' labels'
  | _, _ => 0
  end.

(** [for i, x in enumerate(l)] over a loop body that may raise. *)
Fixpoint for_enumerate {St A : Type} (body : St -> nat -> A -> option St)
  (i : nat) (l : list A) (s : St) : option St :=
  match l with
  | [] => Some s
  | x :: rest => s' ← body s i x; for_enumerate body (S i) rest s'
  end.

Section Script.

Context {F : Framework}.
Local Open Scope Q_scope.

(** A batch as the loaders yield it: [data[0]] are the inputs, [data[1]] the
    labels. *)
Definition batch : Type := list (image * nat).

(** Lines printed by the script. *)
Inductive line : Type :=
  | TrainProgress (i len epoch : nat) (ce acc lr : Q)
  | TestProgress (i len : nat) (top1 top5 : Q)
  | RestoredBest (top1 top5 : Q)
  | NewBest (top1 top5 : Q)
  | SavingBest (filename : string)
  | FinalBest (top1 top5 : Q) (epochs : Z).

(** Everything the script mutates: the model (its parameters and its
    train/eval mode), the optimiser, the random generator, the terminal and
    the checkpoint files. *)
Record World : Type :=
  { state_dict : params;
    training : bool;
    optimizer : optim;
    generator : rng;
    stdout : list line;
    files : gmap string params }.

Definition set_training (b : bool) (w : World) : World :=
  {| state_dict := state_dict w; training := b; optimizer := optimizer w;
     generator := generator w; stdout := stdout w; files := files w |}.

Definition set_generator (g : rng) (w : World) : World :=
  {| state_dict := state_dict w; training := training w; optimizer := optimizer w;
     generator := g; stdout := stdout w; files := files w |}.

Definition set_state_dict (p : params) (w : World) : World :=
  {| state_dict := p; training := training w; optimizer := optimizer w;
     generator := generator w; stdout := stdout w; files := files w |}.

Definition set_optimizer (o : optim) (w : World) : World :=
  {| state_dict := state_dict w; training := training w; optimizer := o;
     generator := generator w; stdout := stdout w; files := files w |}.

Definition print (l : line) (w : World) : World :=
  {| state_dict := state_dict w; training := training w; optimizer := optimizer w;
     generator := generator w; stdout := stdout w ++ [l]; files := files w |}.

Definition set_files (fs : gmap string params) (w : World) : World :=
  {| state_dict := state_dict w; training := training w; optimizer := optimizer w;
     generator := generator w; stdout := stdout w; files := fs |}.

(** [model(inputs)]: one row of scores per sample; dropout draws from the
    generator in training mode only. *)
Definition call_model (w : World) (inputs : list image) : list (list Q) * World :=
  if training w
  then (map (train_scores (state_dict w) (generator w)) inputs,
        set_generator (next_rng (generator w)) w)
  else (map (eval_scores (state_dict w)) inputs, w).

(** [zero_grad], [backward] and [step] on the batch just seen; the gradient
    belongs to the forward pass made with generator [g]. *)
Definition optimizer_step (g : rng) (data : batch) (w : World) : World :=
  let '(o, p) := adam_step (optimizer w) (state_dict w) g data in
  set_optimizer o (set_state_dict p w).

(** Modelled from the spec: [torch.save] and [torch.load] are the framework's;
    section 4.5 has [save] write "the full parameter snapshot to path,
    overwriting any existing file" and [restore] read back "a snapshot
    previously written by save", failing when "the file is absent". *)
Definition torch_save (p : params) (path : string) (fs : gmap string params)
  : gmap string params :=
  <[path := p]> fs.

Definition torch_load (path : string) (fs : gmap string params) : option params :=
  fs !! path.

(** [model.load_state_dict]: fails on a snapshot of another shape. *)
Definition load_state_dict (p : params) (w : World) : option World :=
  if same_shape (state_dict w) p then Some (set_state_dict p w) else None.

(** Per-sample top-k accuracy, in percent, of parameters [p] over a whole
    evaluation set. *)
Definition topk_hits (p : params) (k : nat) (samples : list (image * nat)) : nat :=
  length (List.filter (fun xl => Ui.in_topk k (eval_scores p (fst xl)) (snd xl)) samples).

Definition dataset_accuracy (p : params) (k : nat) (samples : list (image * nat)) : Q :=
  100 * Qnat (topk_hits p k samples) / Qnat (length samples).

(** *** [test] *)

Record TestLoop : Type :=
  { test_world : World; top1 : Ui.AverageMeter; top5 : Ui.AverageMeter }.

(** Lines 82-92, the body of the evaluation loop. *)
Definition test_batch (len : nat) (s : TestLoop) (i : nat) (data : batch)
  : option TestLoop :=
  let inputs := map fst data in
  let labels := map snd data in
  let '(outputs, w) := call_model (test_world s) inputs in
  accs ← Ui.accuracy outputs labels [1; 5]%nat;
  match accs with
  | [acc1; acc5] =>
      let top1 := Ui.update (top1 s) acc1 (length inputs) in
      let top5 := Ui.update (top5 s) acc5 (length inputs) in
      avg1 ← Ui.avg top1;
      avg5 ← Ui.avg top5;
      Some {| test_world := print (TestProgress i len avg1 avg5) w;
              top1 := top1; top5 := top5 |}
  | _ => None
  end.

Definition test (w : World) (test_loader : list batch) : option (Q * Q * World) :=
  let w := set_training false w in                                (* model.eval() *)
  s ← for_enumerate (test_batch (length test_loader)) 0 test_loader
        {| test_world := w; top1 := Ui.fresh; top5 := Ui.fresh |};
  avg1 ← Ui.avg (top1 s);
  avg5 ← Ui.avg (top5 s);
  Some (avg1, avg5, test_world s).

(** The accuracy of one batch, in percent, and the update calls the
    evaluation loop makes on a meter: one per batch, weighted by the number of
    samples of that batch. *)
Definition batch_accuracy (p : params) (k : nat) (data : batch) : Q :=
  Qnat (topk_hits p k data) * (100 / Qnat (length data)).

Definition meter_calls (p : params) (k : nat) (test_loader : list batch)
  : list (Q * nat) :=
  map (fun data => (batch_accuracy p k data, length data)) test_loader.

(** The two meters of the evaluation loop as a function of the parameters
    and the batches alone. *)
Fixpoint eval_meters (p : params) (test_loader : list batch)
  (top1 top5 : Ui.AverageMeter) : option (Ui.AverageMeter * Ui.AverageMeter) :=
  match test_loader with
  | [] => Some (top1, top5)
  | data :: rest =>
      let inputs := map fst data in
      let labels := map snd data in
      accs ← Ui.accuracy (map (eval_scores p) inputs) labels [1; 5]%nat;
      match accs with
      | [acc1; acc5] =>
          let top1 := Ui.update top1 acc1 (length inputs) in
          let top5 := Ui.update top5 acc5 (length inputs) in
          _ ← Ui.avg top1;
          _ ← Ui.avg top5;
          eval_meters p rest top1 top5
      | _ => None
      end
  end.

(** Two worlds that differ at most in what has been printed. *)
Definition same_but_stdout (w w' : World) : Prop :=
  state_dict w = state_dict w' /\ training w = training w' /\
  optimizer w = optimizer w' /\ generator w = generator w' /\
  files w = files w'.

(** *** [train] *)

Record TrainLoop : Type :=
  { train_world : World; correct : nat; total : nat; losses : Ui.AverageMeter;
    acc : option Q }.

(** Lines 55-71, the body of the training loop.  [correct * 100. / total]
    raises ZeroDivisionError when [total] is zero. *)
Definition train_batch (epoch len : nat) (lr : Q) (s : TrainLoop) (i : nat)
  (data : batch) : option TrainLoop :=
  let inputs := map fst data in
  let labels := map snd data in
  let g := generator (train_world s) in
  let '(outputs, w) := call_model (train_world s) inputs in
  let loss := cross_entropy outputs labels in
  let w := optimizer_step g data w in
  let losses := Ui.update (losses s) loss 1 in
  let predicted := map argmax outputs in
  let total := (total s + length labels)%nat in
  let correct := (correct s + eq_sum predicted labels)%nat in
  if Nat.eqb total 0 then None
  else
    let acc := Qnat correct * 100 / Qnat total in
    ce ← Ui.avg losses;
    Some {| train_world := print (TrainProgress i len epoch ce acc lr) w;
            correct := correct; total := total; losses := losses;
            acc := Some acc |}.

Definition train_start (w : World) : TrainLoop :=
  {| train_world := set_training true w;                          (* model.train() *)
     correct := 0; total := 0; losses := Ui.fresh; acc := None |}.

Definition train (w : World) (train_loader test_loader : list batch) (epoch : nat)
  : option (Q * Q * World) :=
  let lr := learning_rate (optimizer w) in
  s ← for_enumerate (train_batch epoch (length train_loader) lr) 0 train_loader
        (train_start w);
  test (train_world s) test_loader.

(** The samples the training loop has predicted on, as (predicted class,
    label) pairs in the order of processing; each batch is scored with the
    parameters of the moment, before that batch's optimiser step. *)
Fixpoint train_predictions (w : World) (batches : list batch) : list (nat * nat) :=
  match batches with
  | [] => []
  | data :: rest =>
      let '(outputs, w') := call_model w (map fst data) in
      combine (map argmax outputs) (map snd data)
      ++ train_predictions (optimizer_step (generator w) data w') rest
  end.

(** The loss of each batch the training loop has processed, in order, each
    computed with the parameters of the moment. *)
Fixpoint train_losses (w : World) (batches : list batch) : list Q :=
  match batches with
  | [] => []
  | data :: rest =>
      let '(outputs, w') := call_model w (map fst data) in
      cross_entropy outputs (map snd data)
      :: train_losses (optimizer_step (generator w) data w') rest
  end.

(** "The number of samples among those batches whose predicted class (argmax
    of the logits) equals the label." *)
Definition correct_count (w : World) (batches : list batch) : nat :=
  length (List.filter (fun pl => Nat.eqb (fst pl) (snd pl))
                 (train_predictions (set_training true w) batches)).

(** The running top-1 accuracy as the specification states it:
    [correct_count / (N * B)]. *)
Definition claimed_running_accuracy (w : World) (batches : list batch) (B : nat) : Q :=
  Qnat (correct_count w batches) / Qnat (length batches * B).

(** *** [main] *)

Record MainState : Type :=
  { main_world : World; best_top1 : Q; best_top5 : Q }.

Definition checkpoint_name (args : Args.t) : string :=
  if Args.cnn args then "cnn-mnist.pth"%string else "transformer-mnist.pth"%string.

(** Lines 283-290: what an epoch's result does to the best-result record and
    to the checkpoint file; [w] is the world [train] has left. *)
Definition record_best (args : Args.t) (s : MainState) (top1 top5 : Q) (w : World)
  : MainState :=
  if Qltb (best_top1 s) top1 then
    let w := print (NewBest top1 top5) w in
    let w :=
      if Args.save_model args then
        let filename := checkpoint_name args in
        print (SavingBest filename)
              (set_files (torch_save (state_dict w) filename (files w)) w)
      else w in
    {| main_world := w; best_top1 := top1; best_top5 := top5 |}
  else {| main_world := w; best_top1 := best_top1 s; best_top5 := best_top5 s |}.

(** Lines 282-290, the body of the epoch loop; [train_loader epoch] are the
    batches the shuffling loader yields in that epoch. *)
Definition main_epoch (args : Args.t) (train_loader : nat -> list batch)
  (test_loader : list batch) (s : MainState) (epoch : nat) : option MainState :=
  r ← train (main_world s) (train_loader epoch) test_loader epoch;
  let '(top1, top5, w) := r in
  Some (record_best args s top1 top5 w).

Fixpoint main_epochs (args : Args.t) (train_loader : nat -> list batch)
  (test_loader : list batch) (epochs : list nat) (s : MainState) : option MainState :=
  match epochs with
  | [] => Some s
  | epoch :: rest =>
      s' ← main_epoch args train_loader test_loader s epoch;
      main_epochs args train_loader test_loader rest s'
  end.

(** Lines 275-278: [--restore-model]. *)
Definition main_restore (args : Args.t) (test_loader : list batch) (w : World)
  : option MainState :=
  match Args.restore_model args with
  | Some path =>
      p ← torch_load path (files w);
      w ← load_state_dict p w;
      r ← test w test_loader;
      let '(top1, top5, w) := r in
      Some {| main_world := print (RestoredBest top1 top5) w;
              best_top1 := top1; best_top5 := top5 |}
  | None => Some {| main_world := w; best_top1 := 0; best_top5 := 0 |}
  end.

(** [main] from line 273 to line 292, started in the world [w] that holds
    the freshly built model and optimiser.  The visualisation that may follow
    only displays; it is [Viz.viz_features]. *)
Definition main (args : Args.t) (train_loader : nat -> list batch)
  (test_loader : list batch) (w : World) : option MainState :=
  s ← main_restore args test_loader w;
  if Args.train args then
    s ← main_epochs args train_loader test_loader
          (seq 1 (Z.to_nat (Args.epochs args))) s;
    Some {| main_world := print (FinalBest (best_top1 s) (best_top5 s) (Args.epochs args))
                                (main_world s);
            best_top1 := best_top1 s; best_top5 := best_top5 s |}
  else Some s.

(** The (top1, top5) results of the epochs of a run and the record after each
    of them, for statements over whole runs. *)
Fixpoint epoch_results (args : Args.t) (train_loader : nat -> list batch)
  (test_loader : list batch) (epochs : list nat) (s : MainState)
  : list (Q * Q * MainState) :=
  match epochs with
  | [] => []
  | epoch :: rest =>
      match train (main_world s) (train_loader epoch) test_loader epoch with
      | Some (top1, top5, w) =>
          let s' := record_best args s top1 top5 w in
          (top1, top5, s') :: epoch_results args train_loader test_loader rest s'
      | None => []
      end
  end.

(** A property of every epoch of a run: of the record before the epoch, the
    epoch's result, and the record after it. *)
Fixpoint each_epoch (P : MainState -> Q -> Q -> MainState -> Prop)
  (s : MainState) (results : list (Q * Q * MainState)) : Prop :=
  match results with
  | [] => True
  | (top1, top5, s') :: rest => P s top1 top5 s' /\ each_epoch P s' rest
  end.

End Script.

(** ** A small instance of the framework, to run the loops on

    Samples are numbered, the parameters count the optimiser steps taken, and
    the six class scores of a sample depend on both. *)

Definition toy_score0 (p x : nat) : Q :=
  if Nat.leb p 1 then (if Nat.eqb x 0 then 6 else 4)
  else (if Nat.leb x 1 then 6 else 0).

Definition toy_scores (p x : nat) : list Q := [toy_score0 p x; 1; 2; 3; 4; 5]%Q.

Definition toy : Framework :=
  {| image := nat;
     params := nat;
     optim := unit;
     rng := nat;
     eval_scores := toy_scores;
     train_scores := fun p _ x => toy_scores p x;
     next_rng := S;
     cross_entropy := fun _ _ => 0%Q;
     learning_rate := fun _ => (1 # 1000)%Q;
     adam_step := fun o p _ _ => (o, S p);
     same_shape := fun _ _ => true |}.

Definition toy_world : @World toy :=
  @Build_World toy 0%nat false tt 0%nat [] ∅.

(** The same model in training mode, with another generator state and a
    line already printed. *)
Definition toy_world_training : @World toy :=
  @Build_World toy 0%nat true tt 7%nat [SavingBest "x.pth"] ∅.

Definition toy_args : Args.t :=
  {| Args.image := "dataset/test/0_000.png"; Args.lr := (1 # 1000)%Q;
     Args.batch_size := 128; Args.epochs := 2; Args.layer_num := 0;
     Args.feature_num := 0; Args.train := true; Args.save_model := true;
     Args.restore_model := None; Args.normalize := false; Args.cnn := true;
     Args.visualize := false |}.

(** A model after two optimiser steps, and the command line that restores
    its checkpoint. *)
Definition toy_world_trained : @World toy :=
  @Build_World toy 2%nat false tt 3%nat [] ∅.

Definition toy_restore_args : Args.t :=
  {| Args.image := "dataset/test/0_000.png"; Args.lr := (1 # 1000)%Q;
     Args.batch_size := 128; Args.epochs := 10; Args.layer_num := 0;
     Args.feature_num := 0; Args.train := false; Args.save_model := false;
     Args.restore_model := Some "cnn-mnist.pth"%string; Args.normalize := false;
     Args.cnn := true; Args.visualize := false |}.

(** One training batch with sample 0, three evaluation samples in two batches;
    every label is class 0. *)
Definition toy_train_loader (epoch : nat) : list (@batch toy) := [[(0, 0)]]%nat.
Definition toy_test_loader : list (@batch toy) := [[(0, 0); (1, 0)]; [(2, 0)]]%nat.

(** * Properties *)

(** ** Rationals *)

Lemma Qltb_lt x y : Qltb x y = true <-> (x < y)%Q.
Proof.
  unfold Qltb. rewrite negb_true_iff, <- not_true_iff_false, Qle_bool_iff.
  split; [apply Qnot_le_lt | apply Qlt_not_le].
Qed.

Lemma Qltb_ge x y : Qltb x y = false <-> (y <= x)%Q.
Proof.
  unfold Qltb. rewrite negb_false_iff. apply Qle_bool_iff.
Qed.

Lemma Qnat_plus a b : (Qnat (a + b) == Qnat a + Qnat b)%Q.
Proof. unfold Qnat. rewrite Nat2Z.inj_add, inject_Z_plus. reflexivity. Qed.

Lemma Qnat_pos n : (0 < n)%nat -> (0 < Qnat n)%Q.
Proof.
  intros H. unfold Qnat, Qlt. simpl. lia.
Qed.

(** ** The metrics aggregator *)

Section MeterFacts.

Import Ui.
Local Open Scope Q_scope.

Lemma updates_cons m v n calls :
  updates m ((v, n) :: calls) = updates (update m v n) calls.
Proof. reflexivity. Qed.

Lemma updates_count m calls :
  count (updates m calls) = (count m + total_weight calls)%nat.
Proof.
  revert m. induction calls as [|[v n] calls IH]; intros m.
  - simpl. lia.
  - rewrite updates_cons, IH. simpl. lia.
Qed.

Lemma updates_sum m calls :
  sum (updates m calls) == sum m + weighted_sum calls.
Proof.
  revert m. induction calls as [|[v n] calls IH]; intros m.
  - simpl. ring.
  - rewrite updates_cons, IH. simpl. ring.
Qed.

Lemma avg_Some m :
  (0 < count m)%nat -> avg m = Some (sum m / Qnat (count m)).
Proof.
  intros H. unfold avg. destruct (Nat.eqb_spec (count m) 0); [lia | reflexivity].
Qed.

Lemma avg_None m : avg m = None <-> count m = 0%nat.
Proof.
  unfold avg. destruct (Nat.eqb_spec (count m) 0); split; congruence.
Qed.

(** The running quotient after a sequence of updates of a fresh meter. *)
Lemma avg_updates_fresh (calls : list (Q * nat)) :
  (0 < total_weight calls)%nat ->
  exists a, avg (updates fresh calls) = Some a /\
            a == weighted_sum calls / Qnat (total_weight calls).
Proof.
  intros Hpos.
  pose proof (updates_count fresh calls) as Hc. simpl in Hc.
  eexists. split.
  - apply avg_Some. rewrite Hc. exact Hpos.
  - rewrite Hc, updates_sum. simpl. apply Qdiv_comp; [ring | reflexivity].
Qed.

(** C1.  Before any update the average of a fresh meter is undefined; after
    the calls update(v_1, n_1) ... update(v_k, n_k) it is the weighted mean
    sum(v_i * n_i) / sum(n_i).  The total weight is positive, as the quotient
    needs it (which takes k >= 1). *)
Theorem average_is_weighted_mean :
  avg fresh = None /\
  forall calls : list (Q * nat),
    (0 < total_weight calls)%nat ->
    exists a, avg (updates fresh calls) = Some a /\
              a == weighted_sum calls / Qnat (total_weight calls).
Proof.
  split; [reflexivity | exact avg_updates_fresh].
Qed.

Lemma average_is_weighted_mean_witness :
  (0 < total_weight [(80%Q, 2%nat); (50%Q, 1%nat)])%nat /\
  exists a, avg (updates fresh [(80, 2%nat); (50, 1%nat)]) = Some a /\
            a == weighted_sum [(80, 2%nat); (50, 1%nat)]
                 / Qnat (total_weight [(80, 2%nat); (50, 1%nat)]).
Proof.
  split; [simpl; lia|].
  apply (proj2 average_is_weighted_mean). simpl; lia.
Defined.

(** The average is read as undefined exactly when no weight has been folded
    in; a first update of positive weight always defines it. *)
Lemma avg_updates_None calls :
  avg (updates fresh calls) = None <-> total_weight calls = 0%nat.
Proof.
  rewrite avg_None, updates_count. simpl. reflexivity.
Qed.

End MeterFacts.

(** ** The convolutional model *)

Section CNNFacts.

Import CNN.

(** The shapes through the stages, for any batch size. *)
Lemma cnn_stage_shapes K :
  forward_shape (firstn 3 CNNModel) [K; 1; 28; 28]%nat = Some [K; 64; 13; 13]%nat /\
  forward_shape (firstn 6 CNNModel) [K; 1; 28; 28]%nat = Some [K; 64; 5; 5]%nat /\
  forward_shape (firstn 9 CNNModel) [K; 1; 28; 28]%nat = Some [K; 576]%nat.
Proof. repeat split. Qed.

(** C5, refuted as worded: the third convolution is followed by the dropout
    layer, not by an activation. *)
Lemma cnn_third_conv_not_activated :
  successors is_conv CNNModel = [Some ReLU; Some ReLU; Some (Dropout (2 # 10))] /\
  each_conv_activated CNNModel = false.
Proof. split; reflexivity. Qed.

(** C5, as the code has it.  The convolutional model has three convolutions;
    the first two are each followed by an activation and then by pooling, the
    third is followed directly by dropout, then comes the flattening and a
    single linear projection, which is the last layer.  On a batch of shape
    (K,1,28,28) with K >= 1 the forward pass returns logits of shape (K,10). *)
Theorem cnn_structure_and_logits_shape :
  length (List.filter is_conv CNNModel) = 3%nat /\
  successors is_conv CNNModel = [Some ReLU; Some ReLU; Some (Dropout (2 # 10))] /\
  successors is_activation CNNModel = [Some (MaxPool2d 2); Some (MaxPool2d 2)] /\
  successors is_dropout CNNModel = [Some Flatten] /\
  successors is_flatten CNNModel = [Some (Linear 576 10)] /\
  List.filter is_linear CNNModel = [Linear 576 10] /\
  successors is_linear CNNModel = [None] /\
  forall K : nat, (1 <= K)%nat ->
    forward_shape CNNModel [K; 1; 28; 28]%nat = Some [K; 10]%nat.
Proof.
  repeat split.
Qed.

Lemma cnn_structure_and_logits_shape_witness :
  (1 <= 128)%nat /\
  forward_shape CNNModel [128; 1; 28; 28]%nat = Some [128; 10]%nat.
Proof.
  split; [lia|].
  apply cnn_structure_and_logits_shape. lia.
Defined.

(** A batch that is not 28 by 28 does not reach the linear layer. *)
Lemma cnn_rejects_other_sizes :
  forward_shape CNNModel [1; 1; 32; 32]%nat = None.
Proof. reflexivity. Qed.

End CNNFacts.

(** ** Normalisation in [plot_data] *)

Section NormalizeFacts.

Import Numpy Viz.
Local Open Scope Q_scope.

Lemma Qmin_cases x y : Qmin x y = x \/ Qmin x y = y.
Proof.
  unfold Qmin, GenericMinMax.gmin. destruct (x ?= y); auto.
Qed.

Lemma Qmax_cases x y : Qmax x y = x \/ Qmax x y = y.
Proof.
  unfold Qmax, GenericMinMax.gmax. destruct (x ?= y); auto.
Qed.

Lemma fold_Qmin_le l x :
  fold_left Qmin l x <= x /\ Forall (fun y => fold_left Qmin l x <= y) l.
Proof.
  revert x. induction l as [|y l IH]; intros x; simpl.
  - split; [apply Qle_refl | constructor].
  - destruct (IH (Qmin x y)) as [H1 H2]. split.
    + eapply Qle_trans; [exact H1 | apply Q.le_min_l].
    + constructor; [|exact H2].
      eapply Qle_trans; [exact H1 | apply Q.le_min_r].
Qed.

Lemma fold_Qmax_ge l x :
  x <= fold_left Qmax l x /\ Forall (fun y => y <= fold_left Qmax l x) l.
Proof.
  revert x. induction l as [|y l IH]; intros x; simpl.
  - split; [apply Qle_refl | constructor].
  - destruct (IH (Qmax x y)) as [H1 H2]. split.
    + eapply Qle_trans; [apply Q.le_max_l | exact H1].
    + constructor; [|exact H2].
      eapply Qle_trans; [apply Q.le_max_r | exact H1].
Qed.

Lemma fold_Qmin_In l x : In (fold_left Qmin l x) (x :: l).
Proof.
  revert x. induction l as [|y l IH]; intros x; simpl.
  - auto.
  - destruct (IH (Qmin x y)) as [H|H]; [|auto].
    rewrite <- H. destruct (Qmin_cases x y) as [E|E]; rewrite E; auto.
Qed.

Lemma fold_Qmax_In l x : In (fold_left Qmax l x) (x :: l).
Proof.
  revert x. induction l as [|y l IH]; intros x; simpl.
  - auto.
  - destruct (IH (Qmax x y)) as [H|H]; [|auto].
    rewrite <- H. destruct (Qmax_cases x y) as [E|E]; rewrite E; auto.
Qed.

(** [np.amin] is a lower bound that is attained, [np.amax] an upper one. *)
Lemma amin_spec l lo :
  amin l = Some lo -> In lo l /\ Forall (fun y => lo <= y) l.
Proof.
  destruct l as [|x l]; simpl; [discriminate|].
  intros [= <-]. split; [apply fold_Qmin_In|].
  destruct (fold_Qmin_le l x). constructor; assumption.
Qed.

Lemma amax_spec l hi :
  amax l = Some hi -> In hi l /\ Forall (fun y => y <= hi) l.
Proof.
  destruct l as [|x l]; simpl; [discriminate|].
  intros [= <-]. split; [apply fold_Qmax_In|].
  destruct (fold_Qmax_ge l x). constructor; assumption.
Qed.

Lemma amin_is_Some l : l <> [] -> exists lo, amin l = Some lo.
Proof. destruct l; [congruence | simpl; eauto]. Qed.

Lemma amax_is_Some l : l <> [] -> exists hi, amax l = Some hi.
Proof. destruct l; [congruence | simpl; eauto]. Qed.

Lemma divide_None x d : divide x d = None <-> d == 0.
Proof.
  unfold divide. destruct (Qeq_bool d 0) eqn:E.
  - apply Qeq_bool_iff in E. tauto.
  - split; [discriminate|]. intros H. apply Qeq_bool_iff in H. congruence.
Qed.

Lemma divide_Some x d : ~ d == 0 -> divide x d = Some (x / d).
Proof.
  intros H. unfold divide. destruct (Qeq_bool d 0) eqn:E; [|reflexivity].
  apply Qeq_bool_iff in E. contradiction.
Qed.

(** The two lines of the normalisation always yield an array on a non-empty
    input: its entries are [(x - min) / max (x - min)]. *)
Lemma normalized_unfold (maps : ndarray Q) :
  data maps <> [] ->
  exists lo hi,
    amin (data maps) = Some lo /\
    amax (map (fun x => x - lo) (data maps)) = Some hi /\
    normalized maps
    = Some {| shape := shape maps;
              data := map (fun x => divide (x - lo) hi) (data maps) |}.
Proof.
  intros Hne.
  destruct (amin_is_Some _ Hne) as [lo Hlo].
  destruct (amax_is_Some (map (fun x => x - lo) (data maps))) as [hi Hhi].
  { destruct (data maps); [congruence | discriminate]. }
  exists lo, hi. repeat split; try assumption.
  unfold normalized, shifted. rewrite Hlo. simpl. rewrite Hhi. simpl.
  rewrite map_map. reflexivity.
Qed.

(** The divisor is the spread of the values: maximum minus minimum. *)
Lemma divisor_bounds l lo hi :
  amin l = Some lo ->
  amax (map (fun x => x - lo) l) = Some hi ->
  0 <= hi /\ Forall (fun x => 0 <= x - lo <= hi) l /\
  exists x, In x l /\ hi = x - lo.
Proof.
  intros Hlo Hhi.
  apply amin_spec in Hlo as [Hin Hlow].
  apply amax_spec in Hhi as [Hin' Hup].
  apply in_map_iff in Hin' as (x & Hx & Hxin).
  rewrite List.Forall_forall in Hlow. rewrite List.Forall_forall in Hup.
  assert (Hnn : forall y, In y l -> 0 <= y - lo).
  { intros y Hy. specialize (Hlow y Hy). lra. }
  split; [|split].
  - rewrite <- Hx. apply Hnn. exact Hxin.
  - apply List.Forall_forall. intros y Hy. split; [apply Hnn; exact Hy|].
    apply Hup. apply in_map_iff. eauto.
  - exists x. split; [exact Hxin | symmetry; exact Hx].
Qed.

Lemma divisor_zero_iff l lo hi :
  amin l = Some lo ->
  amax (map (fun x => x - lo) l) = Some hi ->
  hi == 0 <-> (forall x y, In x l -> In y l -> x == y).
Proof.
  intros Hlo Hhi.
  destruct (divisor_bounds _ _ _ Hlo Hhi) as (Hnn & Hall & x0 & Hx0 & Hx0eq).
  rewrite List.Forall_forall in Hall.
  split.
  - intros Hz x y Hx Hy.
    pose proof (Hall x Hx). pose proof (Hall y Hy). lra.
  - intros Heq.
    apply amin_spec in Hlo as [Hin _].
    specialize (Heq x0 lo Hx0 Hin). subst hi. lra.
Qed.

End NormalizeFacts.

Section PlotFacts.

Import Numpy Viz.
Local Open Scope Q_scope.

(** C10.  On a non-empty array the normalisation subtracts the minimum [lo]
    and divides by [hi], the maximum of the shifted values.  When all entries
    are equal [hi] is zero and no entry of the result is defined; the result
    has all its entries defined, and then within [0,1], exactly when the array
    holds two distinct entries.  [plot_data] draws the rows of that result. *)
Theorem normalization_needs_two_distinct (maps : ndarray Q) (dim : nat) (t : title) :
  data maps <> [] ->
  exists lo hi r,
    amin (data maps) = Some lo /\
    amax (map (fun x => x - lo) (data maps)) = Some hi /\
    normalized maps = Some r /\
    data r = map (fun x => divide (x - lo) hi) (data maps) /\
    plot_data maps dim t = (tiles ← rows r; draw dim t tiles) /\
    ((forall x y, In x (data maps) -> In y (data maps) -> x == y) ->
       hi == 0 /\ Forall (fun e => e = None) (data r)) /\
    ((exists x y, In x (data maps) /\ In y (data maps) /\ ~ x == y) <->
       Forall (fun e => exists v, e = Some v /\ 0 <= v <= 1) (data r)).
Proof.
  intros Hne.
  destruct (normalized_unfold maps Hne) as (lo & hi & Hlo & Hhi & Hn).
  exists lo, hi. eexists. split; [exact Hlo|]. split; [exact Hhi|].
  split; [exact Hn|]. split; [reflexivity|].
  split; [unfold plot_data; rewrite Hn; reflexivity|].
  simpl.
  pose proof (divisor_zero_iff _ _ _ Hlo Hhi) as Hzero.
  destruct (divisor_bounds _ _ _ Hlo Hhi) as (Hnn & Hall & x0 & Hx0 & Hx0eq).
  split; [|split].
  - intros Heq. apply Hzero in Heq. split; [exact Heq|].
    apply List.Forall_forall. intros e He.
    apply in_map_iff in He as (x & <- & _). apply divide_None. exact Heq.
  - intros (x & y & Hx & Hy & Hxy).
    assert (Hpos : 0 < hi).
    { destruct (Qlt_le_dec 0 hi) as [|Hle]; [assumption|].
      exfalso. apply Hxy. apply Hzero; [lra | assumption | assumption]. }
    apply List.Forall_forall. intros e He.
    apply in_map_iff in He as (z & <- & Hz).
    rewrite List.Forall_forall in Hall. specialize (Hall z Hz).
    exists ((z - lo) / hi). split; [apply divide_Some; lra|].
    split.
    + apply Qle_shift_div_l; [exact Hpos | lra].
    + apply Qle_shift_div_r; [exact Hpos | lra].
  - intros Hdef.
    assert (Hnz : ~ hi == 0).
    { intros Hz. destruct (data maps) as [|z l] eqn:E; [congruence|].
      apply Forall_inv in Hdef as (v & Hv & _).
      pose proof (proj2 (divide_None (z - lo) hi) Hz). congruence. }
    apply amin_spec in Hlo as [Hin _].
    exists x0, lo. repeat split; [assumption | assumption |].
    intros Heq. apply Hnz. rewrite Hx0eq. lra.
Qed.

Lemma normalization_needs_two_distinct_witness :
  data sample_kernel <> [] /\
  exists r, normalized sample_kernel = Some r /\
            Forall (fun e => exists v, e = Some v /\ 0 <= v <= 1) (data r).
Proof.
  assert (Hne : data sample_kernel <> []) by discriminate.
  split; [exact Hne|].
  destruct (normalization_needs_two_distinct sample_kernel 0 (FeatureMaps 0) Hne)
    as (lo & hi & r & _ & _ & Hr & _ & _ & _ & Hiff).
  exists r. split; [exact Hr|].
  apply Hiff. exists 1, 2. repeat split.
  - simpl. auto.
  - simpl. auto.
  - intros H. discriminate H.
Defined.

(** A constant layer: every entry of the normalised array is undefined. *)
Lemma normalized_constant :
  normalized {| shape := [2; 2]%nat; data := [5; 5; 5; 5] |}
  = Some {| shape := [2; 2]%nat; data := [None; None; None; None] |}.
Proof. reflexivity. Qed.

End PlotFacts.

(** ** The kernels plotted by [viz_features] *)

Section KernelFacts.

Import Numpy Viz.
Local Open Scope nat_scope.

Lemma normalize_index_lt j d f : normalize_index j d = Some f -> f < d.
Proof.
  unfold normalize_index.
  destruct ((0 <=? j)%Z && (j <? Z.of_nat d)%Z) eqn:E1.
  - intros [= <-]. apply andb_true_iff in E1 as [H1 H2]. lia.
  - destruct ((- Z.of_nat d <=? j)%Z && (j <? 0)%Z) eqn:E2; [|discriminate].
    intros [= <-]. apply andb_true_iff in E2 as [H1 H2]. lia.
Qed.

(** Entry [r] of block [oc] of the slice is entry [r] of block [(oc, f)] of
    the array. *)
Lemma axis1_slice_nth {A} (l : list A) (o i hw f oc r : nat) :
  length l = o * (i * hw) -> f < i -> oc < o -> r < hw ->
  nth_error (concat (map (fun blk => firstn hw (skipn (f * hw) blk))
                         (chunks (i * hw) o l))) (oc * hw + r)
  = nth_error l ((oc * i + f) * hw + r).
Proof.
  revert l oc. induction o as [|o IH]; intros l oc Hlen Hf Hoc Hr; [lia|].
  simpl chunks. simpl map. simpl concat.
  assert (Hblk : length (firstn hw (skipn (f * hw) (firstn (i * hw) l))) = hw).
  { rewrite !length_firstn, length_skipn, length_firstn. nia. }
  destruct oc as [|oc].
  - rewrite nth_error_app1 by (rewrite Hblk; lia).
    rewrite nth_error_firstn.
    destruct (Nat.ltb_spec (0 * hw + r) hw) as [_|]; [|lia].
    rewrite nth_error_skipn, nth_error_firstn.
    destruct (Nat.ltb_spec (f * hw + (0 * hw + r)) (i * hw)) as [_|]; [|nia].
    f_equal; lia.
  - rewrite nth_error_app2 by (rewrite Hblk; lia).
    rewrite Hblk.
    replace (S oc * hw + r - hw) with (oc * hw + r) by lia.
    rewrite IH by (try rewrite length_skipn; lia).
    rewrite nth_error_skipn. f_equal. lia.
Qed.

Lemma axis1_slice_length {A} (l : list A) (o i hw f : nat) :
  length l = o * (i * hw) -> f < i ->
  length (concat (map (fun blk => firstn hw (skipn (f * hw) blk))
                      (chunks (i * hw) o l))) = o * hw.
Proof.
  revert l. induction o as [|o IH]; intros l Hlen Hf; [reflexivity|].
  simpl chunks. simpl map. simpl concat.
  rewrite length_app, IH by (try rewrite length_skipn; lia).
  rewrite !length_firstn, length_skipn, length_firstn. nia.
Qed.

(** [kernel[:, j, :, :]] keeps, for every output feature [oc], the kernel of
    input channel [j]: entry [oc, y, x] of the slice is entry [oc, j, y, x]. *)
Lemma index_axis1_entries {A} (kernel k : ndarray A) (j : Z) (o i h w f : nat) :
  shape kernel = [o; i; h; w] ->
  normalize_index j i = Some f ->
  index_axis1 kernel j = Some k ->
  well_formed kernel = true ->
  well_formed k = true /\
  forall oc y x, get3 k oc y x = get4 kernel oc f y x.
Proof.
  intros Hsh Hj Hk Hwf.
  unfold index_axis1 in Hk. rewrite Hsh, Hj in Hk. injection Hk as <-.
  pose proof (normalize_index_lt _ _ _ Hj) as Hf.
  unfold well_formed in Hwf. rewrite Hsh in Hwf. simpl in Hwf.
  apply Nat.eqb_eq in Hwf.
  assert (Hlen : length (data kernel) = o * (i * (h * w))) by lia.
  split.
  - unfold well_formed. simpl. apply Nat.eqb_eq.
    rewrite axis1_slice_length by assumption. lia.
  - intros oc y x. unfold get3, get4. rewrite Hsh. simpl.
    destruct (Nat.ltb_spec oc o) as [Hoc|]; simpl; [|reflexivity].
    apply Nat.ltb_lt in Hf. rewrite Hf. apply Nat.ltb_lt in Hf. simpl.
    destruct (Nat.ltb_spec y h) as [Hy|]; simpl; [|reflexivity].
    destruct (Nat.ltb_spec x w) as [Hx|]; simpl; [|reflexivity].
    replace ((oc * h + y) * w + x) with (oc * (h * w) + (y * w + x)) by lia.
    replace (((oc * i + f) * h + y) * w + x)
      with ((oc * i + f) * (h * w) + (y * w + x)) by lia.
    apply axis1_slice_nth; try assumption. nia.
Qed.

Lemma viz_layer_Some feature_num layer maps kernel figs :
  viz_layer feature_num layer maps kernel = Some figs ->
  exists n fig_maps k m fig_kernel,
    len (squeeze maps) = Some n /\
    plot_data (squeeze maps) (Nat.sqrt n) (FeatureMaps layer) = Some fig_maps /\
    index_axis1 kernel feature_num = Some k /\
    len (squeeze k) = Some m /\
    plot_data (squeeze k) (Nat.sqrt m) (KernelWeights layer feature_num)
    = Some fig_kernel /\
    figs = [fig_maps; fig_kernel].
Proof.
  unfold viz_layer. intros H.
  apply bind_Some in H as (n & Hn & H).
  apply bind_Some in H as (fig_maps & Hfm & H).
  apply bind_Some in H as (k & Hk & H).
  apply bind_Some in H as (m & Hm & H).
  apply bind_Some in H as (fig_kernel & Hfk & H).
  injection H as <-.
  exists n, fig_maps, k, m, fig_kernel. auto 10.
Qed.

Lemma viz_loop_nth feature_num first pairs figs :
  viz_loop feature_num first pairs = Some figs ->
  forall n maps kernel,
    nth_error pairs n = Some (maps, kernel) ->
    exists fig_maps fig_kernel,
      viz_layer feature_num (first + n) maps kernel = Some [fig_maps; fig_kernel] /\
      nth_error figs (2 * n) = Some fig_maps /\
      nth_error figs (2 * n + 1) = Some fig_kernel.
Proof.
  revert first figs. induction pairs as [|[maps0 kernel0] pairs IH];
    intros first figs H n maps kernel Hn.
  - destruct n; discriminate.
  - simpl in H.
    apply bind_Some in H as (figs0 & H0 & H).
    apply bind_Some in H as (more & Hmore & H).
    injection H as <-.
    destruct (viz_layer_Some _ _ _ _ _ H0)
      as (? & fm & ? & ? & fk & _ & _ & _ & _ & _ & ->).
    destruct n as [|n].
    + injection Hn as <- <-. exists fm, fk.
      rewrite Nat.add_0_r. auto.
    + simpl in Hn.
      destruct (IH _ _ Hmore n maps kernel Hn) as (fm' & fk' & Hl & H1 & H2).
      exists fm', fk'. replace (first + S n) with (S first + n) by lia.
      split; [exact Hl|].
      replace (2 * S n) with (S (S (2 * n))) by lia.
      replace (S (S (2 * n)) + 1) with (S (S (2 * n + 1))) by lia.
      simpl. auto.
Qed.

End KernelFacts.

Section KernelClaim.

Import Numpy Viz.
Local Open Scope nat_scope.

Lemma index_axis1_Some {A} (kernel k : ndarray A) (j : Z) :
  index_axis1 kernel j = Some k ->
  exists o i h w f,
    shape kernel = [o; i; h; w] /\ normalize_index j i = Some f /\
    shape k = [o; h; w].
Proof.
  unfold index_axis1.
  destruct (shape kernel) as [|o [|i [|h [|w [|? ?]]]]]; try discriminate.
  destruct (normalize_index j i) as [f|] eqn:Hf; [|discriminate].
  intros [= <-]. exists o, i, h, w, f. auto.
Qed.

(** C7, refuted as worded, on a layer of four filters over two input
    channels: the routine plots four tiles, one per filter, while the weights
    of output feature 0 alone are two tiles, one per input channel. *)
Lemma viz_kernel_not_output_feature :
  kernel_of_output_feature 0 sample_kernel
  = Some {| shape := [2; 2; 2]; data := firstn 8 (data sample_kernel) |} /\
  (exists figs, viz_layer 0 0 sample_maps sample_kernel = Some figs) /\
  ~ plots_output_feature 0 0 sample_maps sample_kernel /\
  index_axis1 sample_kernel 0 <> kernel_of_output_feature 0 sample_kernel.
Proof.
  split; [reflexivity|]. split; [|split].
  - vm_compute. eexists. reflexivity.
  - intros (k & n & fig_maps & fig_kernel & Hk & Hn & Hplot & Hviz).
    vm_compute in Hk. injection Hk as <-.
    vm_compute in Hn. injection Hn as <-.
    vm_compute in Hplot. discriminate Hplot.
  - intros H. vm_compute in H. discriminate H.
Qed.

(** C7, as the code has it.  For every captured convolutional layer the
    kernel figure is the normalise-and-grid of [kernel[:, feature_num, :, :]],
    squeezed: the weights restricted to the one selected input channel (axis
    1 of the weight array), for all output features.  Entry [oc, y, x] of what
    is plotted is the weight [oc, feature_num, y, x]. *)
Theorem viz_kernel_is_input_channel_slice
  (feature_num : Z) (features kernels : list (ndarray Q)) (figs : list figure) :
  viz_features feature_num features kernels = Some figs ->
  forall layer maps kernel,
    nth_error (combine features kernels) layer = Some (maps, kernel) ->
    exists o i h w f k n fig_kernel,
      shape kernel = [o; i; h; w] /\
      normalize_index feature_num i = Some f /\
      index_axis1 kernel feature_num = Some k /\
      shape k = [o; h; w] /\
      (well_formed kernel = true ->
       forall oc y x, get3 k oc y x = get4 kernel oc f y x) /\
      len (squeeze k) = Some n /\
      plot_data (squeeze k) (Nat.sqrt n) (KernelWeights layer feature_num)
      = Some fig_kernel /\
      nth_error figs (2 * layer + 1) = Some fig_kernel.
Proof.
  unfold viz_features. intros Hviz layer maps kernel Hnth.
  destruct (viz_loop_nth _ _ _ _ Hviz _ _ _ Hnth) as (fm & fk & Hlayer & _ & Hfk).
  simpl in Hlayer.
  destruct (viz_layer_Some _ _ _ _ _ Hlayer)
    as (n0 & fm' & k & n & fk' & _ & _ & Hk & Hn & Hplot & Heq).
  injection Heq as -> ->.
  destruct (index_axis1_Some _ _ _ Hk) as (o & i & h & w & f & Hsh & Hf & Hshk).
  exists o, i, h, w, f, k, n, fk'.
  repeat (split; [assumption|]).
  split; [|auto].
  intros Hwf. eapply index_axis1_entries; eassumption.
Qed.

Lemma viz_kernel_is_input_channel_slice_witness :
  exists figs,
    viz_features 0 [sample_maps] [sample_kernel] = Some figs /\
    nth_error (combine [sample_maps] [sample_kernel]) 0
    = Some (sample_maps, sample_kernel) /\
    exists k fig_kernel,
      index_axis1 sample_kernel 0 = Some k /\
      (forall oc y x, get3 k oc y x = get4 sample_kernel oc 0 y x) /\
      nth_error figs 1 = Some fig_kernel.
Proof.
  assert (Hrun : exists figs, viz_features 0 [sample_maps] [sample_kernel] = Some figs).
  { vm_compute. eexists. reflexivity. }
  destruct Hrun as [figs Hrun]. exists figs.
  split; [exact Hrun|]. split; [reflexivity|].
  destruct (viz_kernel_is_input_channel_slice 0 [sample_maps] [sample_kernel] figs
              Hrun 0 sample_maps sample_kernel eq_refl)
    as (o & i & h & w & f & k & n & fk & Hsh & Hf & Hk & _ & Hget & _ & _ & Hfig).
  exists k, fk. split; [exact Hk|]. split; [|exact Hfig].
  injection Hsh as <- <- <- <-. injection Hf as <-.
  apply Hget. reflexivity.
Defined.

End KernelClaim.

(** ** The evaluation loop *)

Section EvalFacts.

Context {F : Framework}.
Local Open Scope Q_scope.

Lemma same_but_stdout_refl (w : World) : same_but_stdout w w.
Proof. unfold same_but_stdout. auto. Qed.

Lemma same_but_stdout_sym (w w' : World) :
  same_but_stdout w w' -> same_but_stdout w' w.
Proof. unfold same_but_stdout. intuition congruence. Qed.

Lemma same_but_stdout_trans (w1 w2 w3 : World) :
  same_but_stdout w1 w2 -> same_but_stdout w2 w3 -> same_but_stdout w1 w3.
Proof. unfold same_but_stdout. intuition congruence. Qed.

Lemma same_but_stdout_print (l : line) (w : World) : same_but_stdout w (print l w).
Proof. unfold same_but_stdout. simpl. auto. Qed.

Lemma for_enumerate_app {St A} (body : St -> nat -> A -> option St) i l l' s :
  for_enumerate body i (l ++ l') s
  = s' ← for_enumerate body i l s; for_enumerate body (i + length l) l' s'.
Proof.
  revert i s. induction l as [|x l IH]; intros i s; simpl.
  - rewrite Nat.add_0_r. reflexivity.
  - destruct (body s i x) as [s'|]; simpl; [|reflexivity].
    rewrite IH. replace (S i + length l)%nat with (i + S (length l))%nat by lia.
    reflexivity.
Qed.

(** In eval mode the forward pass reads the parameters and nothing else, and
    leaves the world as it is. *)
Lemma call_model_eval (w : World) inputs :
  training w = false ->
  call_model w inputs = (map (eval_scores (state_dict w)) inputs, w).
Proof. intros H. unfold call_model. rewrite H. reflexivity. Qed.

Lemma test_batch_eval len (s : TestLoop) i (data : batch) :
  training (test_world s) = false ->
  test_batch len s i data
  = accs ← Ui.accuracy (map (eval_scores (state_dict (test_world s))) (map fst data))
             (map snd data) [1; 5]%nat;
    match accs with
    | [acc1; acc5] =>
        let top1 := Ui.update (top1 s) acc1 (length (map fst data)) in
        let top5 := Ui.update (top5 s) acc5 (length (map fst data)) in
        avg1 ← Ui.avg top1;
        avg5 ← Ui.avg top5;
        Some {| test_world := print (TestProgress i len avg1 avg5) (test_world s);
                top1 := top1; top5 := top5 |}
    | _ => None
    end.
Proof.
  intros Heval. unfold test_batch. rewrite (call_model_eval _ _ Heval).
  reflexivity.
Qed.

(** The loop of [test] computes [eval_meters] and touches only the terminal. *)
Lemma test_loop_meters len (test_loader : list batch) i (s : TestLoop) :
  training (test_world s) = false ->
  match eval_meters (state_dict (test_world s)) test_loader (top1 s) (top5 s) with
  | Some (m1, m5) =>
      exists s', for_enumerate (test_batch len) i test_loader s = Some s' /\
                 top1 s' = m1 /\ top5 s' = m5 /\
                 same_but_stdout (test_world s) (test_world s')
  | None => for_enumerate (test_batch len) i test_loader s = None
  end.
Proof.
  revert i s. induction test_loader as [|data rest IH]; intros i s Heval.
  - simpl. exists s. auto using same_but_stdout_refl.
  - cbn [for_enumerate eval_meters]. rewrite (test_batch_eval _ _ _ _ Heval).
    destruct (Ui.accuracy _ _ _) as [accs|]; simpl; [|reflexivity].
    destruct accs as [|acc1 [|acc5 [|? ?]]]; try reflexivity.
    destruct (Ui.avg (Ui.update (top1 s) acc1 _)) as [avg1|]; simpl; [|reflexivity].
    destruct (Ui.avg (Ui.update (top5 s) acc5 _)) as [avg5|]; simpl; [|reflexivity].
    match goal with
    | |- context [for_enumerate _ (S i) rest ?s1] =>
        specialize (IH (S i) s1 Heval); simpl in IH
    end.
    destruct (eval_meters _ rest _ _) as [[m1 m5]|]; [|exact IH].
    destruct IH as (s' & Hrun & H1 & H5 & Hsame).
    exists s'. split; [exact Hrun|]. split; [exact H1|]. split; [exact H5|].
    eapply same_but_stdout_trans; [|exact Hsame].
    apply same_but_stdout_print.
Qed.

(** [test] as a function of the parameters and the evaluation set. *)
Lemma test_eval_meters (w : World) (test_loader : list batch) :
  match eval_meters (state_dict w) test_loader Ui.fresh Ui.fresh with
  | Some (m1, m5) =>
      match Ui.avg m1, Ui.avg m5 with
      | Some avg1, Some avg5 =>
          exists w', test w test_loader = Some (avg1, avg5, w') /\
                     same_but_stdout (set_training false w) w'
      | _, _ => test w test_loader = None
      end
  | None => test w test_loader = None
  end.
Proof.
  unfold test.
  pose proof (test_loop_meters (length test_loader) test_loader 0
                {| test_world := set_training false w;
                   top1 := Ui.fresh; top5 := Ui.fresh |} eq_refl) as H.
  simpl in H.
  destruct (eval_meters _ _ _ _) as [[m1 m5]|]; [|rewrite H; reflexivity].
  destruct H as (s' & -> & <- & <- & Hsame). simpl.
  destruct (Ui.avg (top1 s')) as [avg1|]; simpl; [|reflexivity].
  destruct (Ui.avg (top5 s')) as [avg5|]; simpl; [|reflexivity].
  eauto.
Qed.

Lemma test_result_params_only (w1 w2 : World) (test_loader : list batch) :
  state_dict w1 = state_dict w2 ->
  option_map fst (test w1 test_loader) = option_map fst (test w2 test_loader).
Proof.
  intros Hp.
  pose proof (test_eval_meters w1 test_loader) as H1.
  pose proof (test_eval_meters w2 test_loader) as H2.
  rewrite <- Hp in H2.
  destruct (eval_meters _ _ _ _) as [[m1 m5]|]; [|rewrite H1, H2; reflexivity].
  destruct (Ui.avg m1) as [avg1|]; [|rewrite H1, H2; reflexivity].
  destruct (Ui.avg m5) as [avg5|]; [|rewrite H1, H2; reflexivity].
  destruct H1 as (w1' & -> & _). destruct H2 as (w2' & -> & _). reflexivity.
Qed.

Lemma test_same_but_stdout (w w' : World) (test_loader : list batch) r :
  test w test_loader = Some (r, w') ->
  same_but_stdout (set_training false w) w'.
Proof.
  intros Hrun.
  pose proof (test_eval_meters w test_loader) as H.
  destruct (eval_meters _ _ _ _) as [[m1 m5]|]; [|congruence].
  destruct (Ui.avg m1) as [avg1|]; [|congruence].
  destruct (Ui.avg m5) as [avg5|]; [|congruence].
  destruct H as (w'' & H & Hsame). rewrite H in Hrun.
  injection Hrun as <- <-. exact Hsame.
Qed.

(** C4.  Two runs of [test] on worlds holding the same parameters, over the
    same evaluation set, return the same (top1, top5), whatever mode the model
    was in and whatever the generator, optimiser, terminal and files hold; the
    run fails in the one exactly when it fails in the other.  A run changes
    neither the parameters nor the optimiser, generator or files (it leaves
    the model in eval mode), so running again returns the same pair. *)
Theorem test_is_pure (w1 w2 : World) (test_loader : list batch) :
  state_dict w1 = state_dict w2 ->
  option_map fst (test w1 test_loader) = option_map fst (test w2 test_loader) /\
  forall r w1', test w1 test_loader = Some (r, w1') ->
    state_dict w1' = state_dict w1 /\ training w1' = false /\
    optimizer w1' = optimizer w1 /\ generator w1' = generator w1 /\
    files w1' = files w1 /\
    option_map fst (test w1' test_loader) = Some r.
Proof.
  intros Hp. split; [apply test_result_params_only; exact Hp|].
  intros r w1' Hrun.
  destruct (test_same_but_stdout _ _ _ _ Hrun) as (H1 & H2 & H3 & H4 & H5).
  simpl in *. repeat split; try congruence.
  rewrite (test_result_params_only w1' w1) by congruence.
  rewrite Hrun. reflexivity.
Qed.

End EvalFacts.

Section EvalAccuracy.

Context {F : Framework}.
Local Open Scope Q_scope.

Lemma correct_k_hits (p : params) k (data : batch) :
  Ui.correct_k k (map (eval_scores p) (map fst data)) (map snd data)
  = topk_hits p k data.
Proof.
  unfold topk_hits. induction data as [|[x l] data IH]; simpl; [reflexivity|].
  rewrite IH. destruct (Ui.in_topk k (eval_scores p x) l); reflexivity.
Qed.

Lemma topk_hits_app (p : params) k (data data' : batch) :
  topk_hits p k (data ++ data') = (topk_hits p k data + topk_hits p k data')%nat.
Proof. unfold topk_hits. rewrite List.filter_app, length_app. reflexivity. Qed.

Lemma accuracy_batch (p : params) (data : batch) :
  data <> [] ->
  Ui.accuracy (map (eval_scores p) (map fst data)) (map snd data) [1; 5]%nat
  = Some [batch_accuracy p 1 data; batch_accuracy p 5 data].
Proof.
  intros Hne. unfold Ui.accuracy, batch_accuracy.
  rewrite length_map.
  destruct (Nat.eqb_spec (length data) 0) as [E|_].
  - destruct data; [congruence | discriminate].
  - simpl. rewrite !correct_k_hits. reflexivity.
Qed.

(** The meters of the evaluation loop are those of one update per batch,
    weighted by the size of that batch. *)
Lemma eval_meters_updates (p : params) (test_loader : list batch) m1 m5 :
  Forall (fun data => data <> []) test_loader ->
  eval_meters p test_loader m1 m5
  = Some (Ui.updates m1 (meter_calls p 1 test_loader),
          Ui.updates m5 (meter_calls p 5 test_loader)).
Proof.
  intros Hne. revert m1 m5.
  induction Hne as [|data rest Hdata _ IH]; intros m1 m5; [reflexivity|].
  cbn [eval_meters]. rewrite (accuracy_batch _ _ Hdata). simpl.
  assert (Hlen : (0 < length data)%nat).
  { destruct data; [congruence | simpl; lia]. }
  rewrite !avg_Some by (simpl; rewrite length_map; lia).
  simpl. rewrite IH, length_map. reflexivity.
Qed.

Lemma total_weight_meter_calls (p : params) k (test_loader : list batch) :
  Ui.total_weight (meter_calls p k test_loader) = length (concat test_loader).
Proof.
  induction test_loader as [|data rest IH]; simpl; [reflexivity|].
  rewrite IH, length_app. reflexivity.
Qed.

Lemma weighted_sum_meter_calls (p : params) k (test_loader : list batch) :
  Forall (fun data => data <> []) test_loader ->
  Ui.weighted_sum (meter_calls p k test_loader)
  == 100 * Qnat (topk_hits p k (concat test_loader)).
Proof.
  induction 1 as [|data rest Hdata _ IH]; simpl; [reflexivity|].
  rewrite IH, topk_hits_app, Qnat_plus. unfold batch_accuracy.
  assert (Hpos : 0 < Qnat (length data)).
  { apply Qnat_pos. destruct data; [congruence | simpl; lia]. }
  field. lra.
Qed.

(** C8.  Each batch's accuracy is folded into the two meters with that
    batch's own number of samples as weight, so on a non-empty evaluation set
    of non-empty batches of any sizes, [test] returns the per-sample top-1 and
    top-5 accuracy (in percent) over all samples of the set. *)
Theorem test_is_per_sample_accuracy (w : World) (test_loader : list batch) :
  test_loader <> [] ->
  Forall (fun data => data <> []) test_loader ->
  exists avg1 avg5 w',
    test w test_loader = Some (avg1, avg5, w') /\
    Ui.avg (Ui.updates Ui.fresh (meter_calls (state_dict w) 1 test_loader)) = Some avg1 /\
    Ui.avg (Ui.updates Ui.fresh (meter_calls (state_dict w) 5 test_loader)) = Some avg5 /\
    avg1 == dataset_accuracy (state_dict w) 1 (concat test_loader) /\
    avg5 == dataset_accuracy (state_dict w) 5 (concat test_loader).
Proof.
  intros Hne Hall.
  pose proof (test_eval_meters w test_loader) as Htest.
  rewrite (eval_meters_updates _ _ _ _ Hall) in Htest.
  assert (Hsize : (0 < length (concat test_loader))%nat).
  { destruct test_loader as [|data rest]; [congruence|].
    inversion Hall as [|? ? Hdata _]; subst.
    simpl. rewrite length_app. destruct data; [congruence | simpl; lia]. }
  assert (Hmean : forall k,
    exists a, Ui.avg (Ui.updates Ui.fresh (meter_calls (state_dict w) k test_loader))
              = Some a /\ a == dataset_accuracy (state_dict w) k (concat test_loader)).
  { intros k.
    destruct (avg_updates_fresh (meter_calls (state_dict w) k test_loader))
      as (a & Ha & Heq).
    { rewrite total_weight_meter_calls. exact Hsize. }
    exists a. split; [exact Ha|].
    rewrite Heq, weighted_sum_meter_calls, total_weight_meter_calls by exact Hall.
    reflexivity. }
  destruct (Hmean 1%nat) as (a1 & Ha1 & Heq1).
  destruct (Hmean 5%nat) as (a5 & Ha5 & Heq5).
  rewrite Ha1, Ha5 in Htest. destruct Htest as (w' & Hrun & _).
  exists a1, a5, w'. auto.
Qed.

End EvalAccuracy.

(** ** The training loop *)

Section TrainFacts.

Context {F : Framework}.
Local Open Scope Q_scope.

Lemma call_model_same (w w' : World) inputs :
  same_but_stdout w w' ->
  (call_model w inputs).1 = (call_model w' inputs).1 /\
  same_but_stdout (call_model w inputs).2 (call_model w' inputs).2.
Proof.
  intros (Hp & Ht & Ho & Hg & Hf). unfold call_model.
  rewrite <- Hp, <- Ht, <- Hg.
  destruct (training w) eqn:E; simpl; (split; [reflexivity|]);
    unfold same_but_stdout; simpl; intuition congruence.
Qed.

Lemma optimizer_step_same g data (w w' : World) :
  same_but_stdout w w' ->
  same_but_stdout (optimizer_step g data w) (optimizer_step g data w').
Proof.
  intros (Hp & Ht & Ho & Hg & Hf). unfold optimizer_step.
  rewrite <- Hp, <- Ho.
  destruct (adam_step _ _ _ _) as [o p].
  unfold same_but_stdout; simpl; auto 10.
Qed.

Lemma call_model_training (w : World) inputs :
  training (call_model w inputs).2 = training w.
Proof. unfold call_model. destruct (training w) eqn:E; simpl; auto. Qed.

Lemma optimizer_step_training g data (w : World) :
  training (optimizer_step g data w) = training w.
Proof.
  unfold optimizer_step. destruct (adam_step _ _ _ _). reflexivity.
Qed.

Lemma call_model_files (w : World) inputs :
  files (call_model w inputs).2 = files w.
Proof. unfold call_model. destruct (training w); reflexivity. Qed.

Lemma optimizer_step_files g data (w : World) :
  files (optimizer_step g data w) = files w.
Proof.
  unfold optimizer_step. destruct (adam_step _ _ _ _). reflexivity.
Qed.

(** The predictions do not depend on what has been printed. *)
Lemma train_predictions_same (batches : list batch) (w w' : World) :
  same_but_stdout w w' ->
  train_predictions w batches = train_predictions w' batches.
Proof.
  revert w w'. induction batches as [|data rest IH]; intros w w' Hsame;
    [reflexivity|].
  cbn [train_predictions].
  destruct (call_model_same w w' (map fst data) Hsame) as [Hout Hw].
  destruct (call_model w (map fst data)) as [outputs w1].
  destruct (call_model w' (map fst data)) as [outputs' w1'].
  simpl in Hout, Hw. subst outputs'.
  f_equal. apply IH.
  destruct Hsame as (_ & _ & _ & Hg & _). rewrite <- Hg.
  apply optimizer_step_same. exact Hw.
Qed.

Lemma eq_sum_filter (predicted labels : list nat) :
  eq_sum predicted labels
  = length (List.filter (fun pl => Nat.eqb pl.1 pl.2) (combine predicted labels)).
Proof.
  revert labels. induction predicted as [|p predicted IH]; intros [|l labels];
    simpl; try reflexivity.
  rewrite IH. destruct (Nat.eqb p l); reflexivity.
Qed.

(** One pass through the body of the loop, on a batch that has samples. *)
Lemma train_batch_step epoch len lr (s : TrainLoop) i (data : batch) :
  data <> [] ->
  exists s' ce a,
    train_batch epoch len lr s i data = Some s' /\
    total s' = (total s + length data)%nat /\
    correct s'
    = (correct s
       + eq_sum (map argmax (call_model (train_world s) (map fst data)).1)
                (map snd data))%nat /\
    a = Qnat (correct s') * 100 / Qnat (total s') /\
    acc s' = Some a /\
    train_world s'
    = print (TrainProgress i len epoch ce a lr)
        (optimizer_step (generator (train_world s)) data
           (call_model (train_world s) (map fst data)).2).
Proof.
  intros Hne. unfold train_batch.
  destruct (call_model (train_world s) (map fst data)) as [outputs w1]. simpl.
  rewrite length_map.
  destruct (Nat.eqb_spec (total s + length data) 0) as [E|_].
  { destruct data; [congruence | simpl in E; lia]. }
  rewrite avg_Some by (simpl; lia). simpl.
  eexists. eexists. eexists. split; [reflexivity|]. simpl. auto 10.
Qed.

(** The counters after the loop has run over [batches]. *)
Lemma train_loop_counts epoch len lr (batches : list batch) i (s : TrainLoop) :
  Forall (fun data => data <> []) batches ->
  exists s',
    for_enumerate (train_batch epoch len lr) i batches s = Some s' /\
    total s' = (total s + length (concat batches))%nat /\
    correct s'
    = (correct s
       + length (List.filter (fun pl => Nat.eqb pl.1 pl.2)
                   (train_predictions (train_world s) batches)))%nat /\
    training (train_world s') = training (train_world s) /\
    files (train_world s') = files (train_world s).
Proof.
  intros Hall. revert i s.
  induction Hall as [|data rest Hdata _ IH]; intros i s.
  - exists s. simpl. repeat split; lia.
  - destruct (train_batch_step epoch len lr s i data Hdata)
      as (s1 & ce & a & Hstep & Htot & Hcor & _ & _ & Hw).
    destruct (IH (S i) s1) as (s' & Hrun & Htot' & Hcor' & Htr & Hfs).
    exists s'. cbn [for_enumerate]. rewrite Hstep. simpl.
    split; [exact Hrun|].
    split; [rewrite Htot', Htot; simpl; rewrite length_app; lia|].
    split.
    + rewrite Hcor', Hcor. cbn [train_predictions].
      rewrite (train_predictions_same rest (train_world s1)
                 (optimizer_step (generator (train_world s)) data
                    (call_model (train_world s) (map fst data)).2)).
      * destruct (call_model (train_world s) (map fst data)) as [outputs w1].
        simpl. rewrite List.filter_app, length_app, eq_sum_filter. lia.
      * rewrite Hw. apply same_but_stdout_sym, same_but_stdout_print.
    + rewrite Htr, Hfs, Hw. simpl.
      rewrite optimizer_step_training, call_model_training.
      rewrite optimizer_step_files, call_model_files. auto.
Qed.

End TrainFacts.

Section TrainAccuracy.

Context {F : Framework}.
Local Open Scope Q_scope.

Lemma concat_length_uniform {A} (l : list (list A)) (B : nat) :
  Forall (fun data => length data = B) l ->
  length (concat l) = (length l * B)%nat.
Proof.
  induction 1 as [|data rest Hdata _ IH]; simpl; [reflexivity|].
  rewrite length_app, IH, Hdata. reflexivity.
Qed.

(** What the loop has printed last, and the accuracy it holds, after a
    non-empty run. *)
Lemma train_loop_last epoch len lr (pre : list batch) (data : batch) i
  (s0 s : TrainLoop) :
  for_enumerate (train_batch epoch len lr) i (pre ++ [data]) s0 = Some s ->
  data <> [] ->
  exists ce a,
    last (stdout (train_world s))
    = Some (TrainProgress (i + length pre) len epoch ce a lr) /\
    acc s = Some a /\
    a = Qnat (correct s) * 100 / Qnat (total s).
Proof.
  intros Hrun Hdata. rewrite for_enumerate_app in Hrun.
  apply bind_Some in Hrun as (s1 & _ & Hlast).
  destruct (train_batch_step epoch len lr s1 (i + length pre) data Hdata)
    as (s' & ce & a & Hstep & _ & _ & Ha & Hacc & Hw).
  cbn [for_enumerate] in Hlast. rewrite Hstep in Hlast. simpl in Hlast.
  injection Hlast as <-.
  exists ce, a. rewrite Hw. simpl. rewrite last_snoc. auto.
Qed.

(** C2, as the code has it.  After the training loop has processed N >= 1
    batches of B >= 1 samples each, the running top-1 accuracy it holds and
    has just printed is the percentage 100 * correct_count / (N * B), with
    correct_count the number of those samples whose argmax prediction, made
    with the parameters of the moment, equals the label. *)
Theorem running_accuracy_is_percentage (w : World) epoch len lr
  (batches : list batch) (N B : nat) :
  (1 <= N)%nat -> (1 <= B)%nat ->
  length batches = N ->
  Forall (fun data => length data = B) batches ->
  exists s ce a,
    for_enumerate (train_batch epoch len lr) 0 batches (train_start w) = Some s /\
    last (stdout (train_world s))
    = Some (TrainProgress (N - 1) len epoch ce a lr) /\
    acc s = Some a /\
    a == 100 * Qnat (correct_count w batches) / Qnat (N * B).
Proof.
  intros HN HB Hlen Hall.
  assert (Hne : Forall (fun data : batch => data <> []) batches).
  { eapply Forall_impl; [exact Hall|]. intros data Hd ->. simpl in Hd. lia. }
  destruct (train_loop_counts epoch len lr batches 0 (train_start w) Hne)
    as (s & Hrun & Htot & Hcor & _ & _).
  destruct (exists_last (l := batches)) as (pre & data & Hsplit).
  { intros ->. simpl in Hlen. lia. }
  assert (Hdata : data <> []).
  { rewrite Hsplit in Hne. apply Forall_app in Hne as [_ Hd].
    inversion Hd; assumption. }
  pose proof Hrun as Hrun'. rewrite Hsplit in Hrun'.
  destruct (train_loop_last _ _ _ _ _ _ _ _ Hrun' Hdata) as (ce & a & Hlast & Hacc & Ha).
  exists s, ce, a. split; [exact Hrun|]. split.
  - rewrite Hlast. repeat f_equal.
    rewrite <- Hlen, Hsplit, length_app. simpl. lia.
  - split; [exact Hacc|].
    rewrite Ha, Hcor, Htot. simpl.
    rewrite (concat_length_uniform _ _ Hall). unfold batch in Hlen.
    rewrite Hlen. unfold correct_count, Qdiv. ring.
Qed.

End TrainAccuracy.

Section TrainAccuracyToy.

Local Open Scope Q_scope.

(** C2, refuted as worded: after one batch of one sample, predicted
    correctly, the loop reports 100, the quotient correct_count / (N * B)
    is 1. *)
Lemma running_accuracy_not_fraction :
  claimed_running_accuracy toy_world (toy_train_loader 1) 1 == 1 /\
  exists s a,
    for_enumerate (train_batch 1 1 (1 # 1000)) 0 (toy_train_loader 1)
      (train_start toy_world) = Some s /\
    acc s = Some a /\ a == 100 /\
    ~ a == claimed_running_accuracy toy_world (toy_train_loader 1) 1.
Proof.
  split; [reflexivity|].
  eexists. eexists. split; [vm_compute; reflexivity|].
  split; [reflexivity|]. split; [reflexivity|].
  intros H. discriminate H.
Qed.

Lemma running_accuracy_is_percentage_witness :
  (1 <= 1)%nat /\ length (toy_train_loader 1) = 1%nat /\
  Forall (fun data => length data = 1%nat) (toy_train_loader 1) /\
  exists s ce a,
    for_enumerate (train_batch 1 1 (1 # 1000)) 0 (toy_train_loader 1)
      (train_start toy_world) = Some s /\
    last (stdout (train_world s))
    = Some (TrainProgress (1 - 1) 1 1 ce a (1 # 1000)) /\
    acc s = Some a /\
    a == 100 * Qnat (correct_count toy_world (toy_train_loader 1)) / Qnat (1 * 1).
Proof.
  assert (Hall : Forall (fun data : @batch toy => length data = 1%nat)
                   (toy_train_loader 1)).
  { repeat constructor. }
  split; [lia|]. split; [reflexivity|]. split; [exact Hall|].
  apply (running_accuracy_is_percentage toy_world 1%nat 1%nat (1 # 1000)
           (toy_train_loader 1) 1 1); [lia | lia | reflexivity | exact Hall].
Defined.

End TrainAccuracyToy.

(** ** The epoch loop of [main] and the checkpoint *)

Section MainFacts.

Context {F : Framework}.
Local Open Scope Q_scope.

Lemma train_batch_files epoch len lr (s s' : TrainLoop) i (data : batch) :
  train_batch epoch len lr s i data = Some s' ->
  files (train_world s') = files (train_world s).
Proof.
  unfold train_batch.
  pose proof (call_model_files (train_world s) (map fst data)) as Hcm.
  destruct (call_model (train_world s) (map fst data)) as [outputs w1].
  simpl in Hcm.
  destruct (Nat.eqb _ 0); [discriminate|].
  intros H. apply bind_Some in H as (ce & _ & H). injection H as <-.
  simpl. rewrite optimizer_step_files. exact Hcm.
Qed.

Lemma train_loop_files epoch len lr (batches : list batch) i (s s' : TrainLoop) :
  for_enumerate (train_batch epoch len lr) i batches s = Some s' ->
  files (train_world s') = files (train_world s).
Proof.
  revert i s. induction batches as [|data rest IH]; intros i s H.
  - injection H as <-. reflexivity.
  - cbn [for_enumerate] in H. apply bind_Some in H as (s1 & Hstep & H).
    rewrite (IH _ _ H). eapply train_batch_files. exact Hstep.
Qed.

(** [train] writes no file. *)
Lemma train_files (w w' : World) (train_loader test_loader : list batch) epoch r :
  train w train_loader test_loader epoch = Some (r, w') ->
  files w' = files w.
Proof.
  unfold train. intros H. apply bind_Some in H as (s & Hloop & Htest).
  apply test_same_but_stdout in Htest as (_ & _ & _ & _ & Hf).
  simpl in Hf. rewrite <- Hf. apply train_loop_files in Hloop. exact Hloop.
Qed.

(** What lines 283-290 do in each of the two cases of the comparison. *)
Lemma record_best_keep args (s : MainState) top1 top5 (w : World) :
  top1 <= best_top1 s ->
  record_best args s top1 top5 w
  = {| main_world := w; best_top1 := best_top1 s; best_top5 := best_top5 s |}.
Proof.
  intros H. unfold record_best. apply Qltb_ge in H. rewrite H. reflexivity.
Qed.

Lemma record_best_improve args (s : MainState) top1 top5 (w : World) :
  best_top1 s < top1 ->
  best_top1 (record_best args s top1 top5 w) = top1 /\
  best_top5 (record_best args s top1 top5 w) = top5 /\
  state_dict (main_world (record_best args s top1 top5 w)) = state_dict w /\
  files (main_world (record_best args s top1 top5 w))
  = if Args.save_model args
    then torch_save (state_dict w) (checkpoint_name args) (files w)
    else files w.
Proof.
  intros H. unfold record_best. apply Qltb_lt in H. rewrite H.
  destruct (Args.save_model args); simpl; auto.
Qed.

(** The results listed by [epoch_results] are those of the loop of [main]. *)
Lemma main_epochs_results args train_loader test_loader epochs (s s' : MainState) :
  main_epochs args train_loader test_loader epochs s = Some s' ->
  length (epoch_results args train_loader test_loader epochs s) = length epochs /\
  s' = default s (last (map snd (epoch_results args train_loader test_loader epochs s))).
Proof.
  revert s. induction epochs as [|epoch rest IH]; intros s H.
  - injection H as <-. auto.
  - cbn [main_epochs] in H. apply bind_Some in H as (s1 & Hstep & H).
    unfold main_epoch in Hstep.
    apply bind_Some in Hstep as ([[top1 top5] w] & Htrain & Hs1).
    injection Hs1 as <-.
    cbn [epoch_results]. rewrite Htrain.
    destruct (IH _ H) as [Hlen Hlast].
    split; [simpl; rewrite Hlen; reflexivity|].
    rewrite Hlast. cbn [map snd]. rewrite last_cons.
    destruct (last (map snd _)); reflexivity.
Qed.

(** A property of the body of the epoch loop holds at every epoch of a run. *)
Lemma each_epoch_intro (P : MainState -> Q -> Q -> MainState -> Prop)
  args train_loader test_loader :
  (forall (s : MainState) epoch top1 top5 w,
     train (main_world s) (train_loader epoch) test_loader epoch
     = Some (top1, top5, w) ->
     P s top1 top5 (record_best args s top1 top5 w)) ->
  forall epochs s,
    each_epoch P s (epoch_results args train_loader test_loader epochs s).
Proof.
  intros Hstep epochs. induction epochs as [|epoch rest IH]; intros s.
  - exact I.
  - cbn [epoch_results].
    destruct (train _ _ _ _) as [[[top1 top5] w]|] eqn:Htrain; [|exact I].
    split; [eapply Hstep; exact Htrain | apply IH].
Qed.

(** C6.  At every epoch of every run: when the epoch's top1 does not exceed
    the recorded best, no file is written and the best-result record stays as
    it was; when it strictly exceeds it, the record becomes the epoch's
    (top1, top5) and, under --save-model, the checkpoint file is overwritten
    with the full parameter snapshot of the model. *)
Theorem checkpoint_only_on_strict_improvement args (train_loader : nat -> list batch)
  (test_loader : list batch) (epochs : list nat) (s0 : MainState) :
  each_epoch
    (fun s top1 top5 s' =>
       (top1 <= best_top1 s ->
        files (main_world s') = files (main_world s) /\
        best_top1 s' = best_top1 s /\ best_top5 s' = best_top5 s) /\
       (best_top1 s < top1 ->
        best_top1 s' = top1 /\ best_top5 s' = top5 /\
        files (main_world s')
        = if Args.save_model args
          then <[checkpoint_name args := state_dict (main_world s')]>
                 (files (main_world s))
          else files (main_world s)))
    s0 (epoch_results args train_loader test_loader epochs s0).
Proof.
  apply each_epoch_intro. intros s epoch top1 top5 w Htrain.
  apply train_files in Htrain. split.
  - intros Hle. rewrite record_best_keep by exact Hle. simpl. auto.
  - intros Hlt.
    destruct (record_best_improve args s top1 top5 w Hlt) as (H1 & H5 & Hp & Hf).
    rewrite H1, H5, Hf, Hp, Htrain. auto.
Qed.

End MainFacts.

Section BestRecord.

Local Open Scope Q_scope.

(** Over a completed run the recorded top1 never decreases. *)
Lemma main_epochs_best_top1_le {F : Framework} args train_loader test_loader
  epochs (s s' : MainState) :
  main_epochs args train_loader test_loader epochs s = Some s' ->
  best_top1 s <= best_top1 s'.
Proof.
  revert s. induction epochs as [|epoch rest IH]; intros s H.
  - injection H as <-. apply Qle_refl.
  - cbn [main_epochs] in H. apply bind_Some in H as (s1 & Hstep & H).
    eapply Qle_trans; [|apply (IH _ H)].
    unfold main_epoch in Hstep.
    apply bind_Some in Hstep as ([[top1 top5] w] & _ & Hs1).
    injection Hs1 as <-.
    destruct (Qlt_le_dec (best_top1 s) top1) as [Hlt|Hle].
    + destruct (record_best_improve args s top1 top5 w Hlt) as (-> & _).
      apply Qlt_le_weak. exact Hlt.
    + rewrite record_best_keep by exact Hle. simpl. apply Qle_refl.
Qed.

(** C9.  At every epoch of every run the recorded top1 does not decrease:
    an epoch whose top1 strictly exceeds the record replaces the record by
    that epoch's (top1, top5), so top1 strictly increases at each update and
    top5 is overwritten with whatever the improving epoch had; any other
    epoch leaves the record as it was.  The recorded top5 is therefore not the
    maximum seen: in the run of the small instance the first epoch is recorded
    with its top5, the second epoch improves top1 with a lower top5, and the
    final record holds that lower top5. *)
Theorem best_top1_increases_top5_overwritten :
  (forall (F : Framework) args (train_loader : nat -> list batch)
          (test_loader : list batch) (epochs : list nat) (s0 : MainState),
     each_epoch
       (fun s top1 top5 s' =>
          best_top1 s <= best_top1 s' /\
          (best_top1 s < top1 ->
           best_top1 s < best_top1 s' /\
           best_top1 s' = top1 /\ best_top5 s' = top5) /\
          (top1 <= best_top1 s ->
           best_top1 s' = best_top1 s /\ best_top5 s' = best_top5 s))
       s0 (epoch_results args train_loader test_loader epochs s0)) /\
  (exists (F : Framework) args (train_loader : nat -> list batch)
          (test_loader : list batch) (w : World) (s : MainState),
     Args.restore_model args = None /\
     main args train_loader test_loader w = Some s /\
     exists top1 top5 s1 top1' top5' s2,
       epoch_results args train_loader test_loader
         (seq 1 (Z.to_nat (Args.epochs args)))
         {| main_world := w; best_top1 := 0; best_top5 := 0 |}
       = [(top1, top5, s1); (top1', top5', s2)] /\
       best_top1 s1 = top1 /\ best_top5 s1 = top5 /\
       top1 < top1' /\ top5' < top5 /\
       best_top1 s = top1' /\ best_top5 s = top5' /\
       best_top5 s < top5).
Proof.
  split.
  - intros F args train_loader test_loader epochs s0.
    apply each_epoch_intro. intros s epoch top1 top5 w _.
    destruct (Qlt_le_dec (best_top1 s) top1) as [Hlt|Hle].
    + destruct (record_best_improve args s top1 top5 w Hlt) as (H1 & H5 & _).
      rewrite H1, H5.
      split; [apply Qlt_le_weak; exact Hlt|]. split; [auto|].
      intros Hle. exfalso. exact (Qlt_not_le _ _ Hlt Hle).
    + rewrite record_best_keep by exact Hle. simpl.
      split; [apply Qle_refl|]. split; [|auto].
      intros Hlt. exfalso. exact (Qlt_not_le _ _ Hlt Hle).
  - exists toy, toy_args, toy_train_loader, toy_test_loader, toy_world.
    eexists. split; [reflexivity|].
    split; [vm_compute; reflexivity|].
    eexists. eexists. eexists. eexists. eexists. eexists.
    split; [vm_compute; reflexivity|].
    repeat split; vm_compute; reflexivity.
Qed.

Lemma best_top1_increases_top5_overwritten_witness :
  let s0 := {| main_world := toy_world; best_top1 := 0; best_top5 := 0 |} in
  exists top1 top5 s1 rest,
    epoch_results toy_args toy_train_loader toy_test_loader [1; 2]%nat s0
    = (top1, top5, s1) :: rest /\
    best_top1 s0 < top1 /\
    best_top1 s1 = top1 /\ best_top5 s1 = top5.
Proof.
  intros s0.
  pose proof (proj1 best_top1_increases_top5_overwritten toy toy_args
                toy_train_loader toy_test_loader [1; 2]%nat s0) as H.
  destruct (epoch_results toy_args toy_train_loader toy_test_loader [1; 2]%nat s0)
    as [|[[top1 top5] s1] rest] eqn:E.
  - vm_compute in E. discriminate E.
  - exists top1, top5, s1, rest. split; [reflexivity|].
    destruct H as [(_ & Himp & _) _].
    assert (Hlt : best_top1 s0 < top1).
    { vm_compute in E. injection E as <- _ _ _. reflexivity. }
    split; [exact Hlt|].
    destruct (Himp Hlt) as (_ & H1 & H5). auto.
Defined.

(** The two epochs of that run: (33.3, 100), then (66.7, 66.7). *)
Lemma toy_run_epochs :
  map (fun r => (Qred r.1.1, Qred r.1.2))
      (epoch_results toy_args toy_train_loader toy_test_loader [1; 2]%nat
         {| main_world := toy_world; best_top1 := 0; best_top5 := 0 |})
  = [(100 # 3, 100 # 1); (200 # 3, 200 # 3)].
Proof. vm_compute. reflexivity. Qed.

End BestRecord.

(** ** Checkpoint round trip *)

Section Checkpoint.

Context {F : Framework}.

Lemma torch_load_save (p : params) path (fs : gmap string params) :
  torch_load path (torch_save p path fs) = Some p.
Proof. unfold torch_load, torch_save. apply lookup_insert_eq. Qed.

(** C3.  What [torch_save] has written under a path, [torch_load] reads back
    from that path unchanged.  A model of the same shape that restores the
    checkpoint of model A holds A's parameters, evaluates to A's (top1, top5),
    and [main] under --restore-model records exactly that pair as its best. *)
Theorem checkpoint_round_trip :
  (forall (p : params) path (fs : gmap string params),
     torch_load path (torch_save p path fs) = Some p) /\
  (forall (wA fresh : World) args path (test_loader : list batch),
     Args.restore_model args = Some path ->
     same_shape (state_dict fresh) (state_dict wA) = true ->
     let fs := torch_save (state_dict wA) path (files fresh) in
     exists w,
       (p ← torch_load path fs; load_state_dict p (set_files fs fresh)) = Some w /\
       state_dict w = state_dict wA /\
       option_map fst (test w test_loader) = option_map fst (test wA test_loader) /\
       forall top1 top5 wA',
         test wA test_loader = Some (top1, top5, wA') ->
         exists s, main_restore args test_loader (set_files fs fresh) = Some s /\
                   best_top1 s = top1 /\ best_top5 s = top5 /\
                   state_dict (main_world s) = state_dict wA).
Proof.
  split; [exact torch_load_save|].
  intros wA fresh args path test_loader Hargs Hshape fs.
  assert (Hfs : torch_load path fs = Some (state_dict wA))
    by apply torch_load_save.
  exists (set_state_dict (state_dict wA) (set_files fs fresh)).
  assert (Hload : (p ← torch_load path fs; load_state_dict p (set_files fs fresh))
                  = Some (set_state_dict (state_dict wA) (set_files fs fresh))).
  { rewrite Hfs. simpl. unfold load_state_dict. simpl.
    rewrite Hshape. reflexivity. }
  split; [exact Hload|]. split; [reflexivity|].
  assert (Hsame : option_map fst
            (test (set_state_dict (state_dict wA) (set_files fs fresh)) test_loader)
          = option_map fst (test wA test_loader)).
  { apply test_result_params_only. reflexivity. }
  split; [exact Hsame|].
  intros top1 top5 wA' HA. rewrite HA in Hsame. simpl in Hsame.
  destruct (test (set_state_dict (state_dict wA) (set_files fs fresh)) test_loader)
    as [[[t1 t5] w']|] eqn:Htest; [|discriminate].
  simpl in Hsame. injection Hsame as -> ->.
  unfold main_restore. rewrite Hargs.
  apply bind_Some in Hload as (p & Hp & Hl).
  change (files (set_files fs fresh)) with fs.
  rewrite Hp. simpl. rewrite Hl. simpl. rewrite Htest. simpl.
  eexists. split; [reflexivity|]. simpl.
  apply test_same_but_stdout in Htest as (Hsd & _). simpl in Hsd.
  auto.
Qed.

End Checkpoint.

(** ** The theorems at work on the small instance *)

Section ToyRuns.

Local Open Scope Q_scope.

Lemma test_is_pure_witness :
  state_dict toy_world = state_dict toy_world_training /\
  option_map fst (test toy_world toy_test_loader)
  = option_map fst (test toy_world_training toy_test_loader).
Proof.
  split; [reflexivity|].
  exact (proj1 (test_is_pure toy_world toy_world_training toy_test_loader eq_refl)).
Defined.

Lemma test_is_per_sample_accuracy_witness :
  toy_test_loader <> [] /\
  Forall (fun data : @batch toy => data <> []) toy_test_loader /\
  exists avg1 avg5 w',
    test toy_world_trained toy_test_loader = Some (avg1, avg5, w') /\
    avg1 == dataset_accuracy (state_dict toy_world_trained) 1 (concat toy_test_loader) /\
    avg5 == dataset_accuracy (state_dict toy_world_trained) 5 (concat toy_test_loader).
Proof.
  assert (Hne : toy_test_loader <> []) by discriminate.
  assert (Hall : Forall (fun data : @batch toy => data <> []) toy_test_loader).
  { repeat constructor; discriminate. }
  split; [exact Hne|]. split; [exact Hall|].
  destruct (test_is_per_sample_accuracy toy_world_trained toy_test_loader Hne Hall)
    as (avg1 & avg5 & w' & Hrun & _ & _ & H1 & H5).
  exists avg1, avg5, w'. auto.
Defined.

Lemma checkpoint_round_trip_witness :
  Args.restore_model toy_restore_args = Some "cnn-mnist.pth"%string /\
  same_shape (state_dict toy_world) (state_dict toy_world_trained) = true /\
  exists w,
    (p ← torch_load "cnn-mnist.pth"
           (torch_save (state_dict toy_world_trained) "cnn-mnist.pth" (files toy_world));
     load_state_dict p
       (set_files (torch_save (state_dict toy_world_trained) "cnn-mnist.pth"
                     (files toy_world)) toy_world))
    = Some w /\
    state_dict w = state_dict toy_world_trained /\
    option_map fst (test w toy_test_loader)
    = option_map fst (test toy_world_trained toy_test_loader).
Proof.
  split; [reflexivity|]. split; [reflexivity|].
  destruct (proj2 checkpoint_round_trip toy_world_trained toy_world
              toy_restore_args "cnn-mnist.pth"%string toy_test_loader
              eq_refl eq_refl) as (w & Hload & Hp & Htest & _).
  exists w. auto.
Defined.

Lemma checkpoint_only_on_strict_improvement_witness :
  let s0 := {| main_world := toy_world; best_top1 := 0; best_top5 := 0 |} in
  exists top1 top5 s1 rest,
    epoch_results toy_args toy_train_loader toy_test_loader [1; 2]%nat s0
    = (top1, top5, s1) :: rest /\
    best_top1 s0 < top1 /\
    files (main_world s1)
    = <[checkpoint_name toy_args := state_dict (main_world s1)]>
        (files (main_world s0)).
Proof.
  intros s0.
  pose proof (checkpoint_only_on_strict_improvement toy_args toy_train_loader
                toy_test_loader [1; 2]%nat s0) as H.
  destruct (epoch_results toy_args toy_train_loader toy_test_loader [1; 2]%nat s0)
    as [|[[top1 top5] s1] rest] eqn:E.
  - vm_compute in E. discriminate E.
  - exists top1, top5, s1, rest. split; [reflexivity|].
    destruct H as [[_ Himp] _].
    assert (Hlt : best_top1 s0 < top1).
    { vm_compute in E. injection E as <- _ _ _. reflexivity. }
    split; [exact Hlt|].
    destruct (Himp Hlt) as (_ & _ & Hf). exact Hf.
Defined.

(** The evaluation of the trained small model: two of three samples are
    top-1 hits, and the same two are the top-5 hits. *)
Lemma toy_test_trained :
  option_map (fun r => (Qred r.1.1, Qred r.1.2))
             (test toy_world_trained toy_test_loader)
  = Some (200 # 3, 200 # 3).
Proof. vm_compute. reflexivity. Qed.

End ToyRuns.

(** * Further properties of the script *)

(** ** Which inputs the convolutional model accepts *)

Section CNNInputs.

Import CNN.
Local Open Scope nat_scope.

Lemma half_lower n k : k <= n / 2 -> 2 * k <= n.
Proof. intros Hk. pose proof (Nat.Div0.mul_div_le n 2). lia. Qed.

Lemma half_upper n k : n / 2 <= k -> n <= 2 * k + 1.
Proof.
  intros Hk. pose proof (Nat.div_mod_eq n 2).
  pose proof (Nat.mod_upper_bound n 2). lia.
Qed.

Lemma half_ge n k : 2 * k <= n -> k <= n / 2.
Proof. intros Hk. apply Nat.div_le_lower_bound; lia. Qed.

(** The sides through the stages, once the input is large enough. *)
Lemma feature_side_stages n :
  18 <= n ->
  8 <= (n - 3 + 1) / 2 /\
  3 <= ((n - 3 + 1) / 2 - 3 + 1) / 2 /\
  ((n - 3 + 1) / 2 - 3 + 1) / 2 - 3 + 1 = feature_side n.
Proof.
  intros Hn. unfold feature_side.
  replace (n - 3 + 1) with (n - 2) by lia.
  assert (H1 : 8 <= (n - 2) / 2) by (apply half_ge; lia).
  replace ((n - 2) / 2 - 3 + 1) with ((n - 2) / 2 - 2) by lia.
  assert (H2 : 3 <= ((n - 2) / 2 - 2) / 2) by (apply half_ge; lia).
  repeat split; [exact H1 | exact H2 | lia].
Qed.

Lemma feature_side_needs n :
  3 <= n -> 3 <= (n - 3 + 1) / 2 ->
  3 <= ((n - 3 + 1) / 2 - 3 + 1) / 2 -> 18 <= n.
Proof.
  intros H0 H1 H2. apply half_lower in H2.
  assert (H3 : 8 <= (n - 3 + 1) / 2) by lia.
  apply half_lower in H3. lia.
Qed.

Ltac shape_step H :=
  cbn -[Nat.leb Nat.eqb Nat.div Nat.sub Nat.add Nat.mul Numpy.size_of] in H.

Ltac split_guards H :=
  repeat (shape_step H;
          match type of H with
          | context [if ?b then _ else _] =>
              destruct b eqn:?; [|discriminate H]
          end).

Ltac guards_to_arith :=
  repeat match goal with
  | H : (_ && _) = true |- _ => apply andb_true_iff in H as [? ?]
  | H : Nat.eqb _ _ = true |- _ => apply Nat.eqb_eq in H
  | H : Nat.leb _ _ = true |- _ => apply Nat.leb_le in H
  end.

Lemma classifier_accepts n_classes K C H W out :
  forward_shape (classifier n_classes) [K; C; H; W] = Some out ->
  C = 1 /\ 18 <= H /\ 18 <= W /\ feature_side H * feature_side W = 9 /\
  out = [K; n_classes].
Proof.
  unfold classifier. intros Hrun.
  split_guards Hrun. shape_step Hrun. guards_to_arith.
  injection Hrun as <-.
  assert (HH : 18 <= H) by (apply feature_side_needs; assumption).
  assert (HW : 18 <= W) by (apply feature_side_needs; assumption).
  destruct (feature_side_stages H HH) as (_ & _ & EH).
  destruct (feature_side_stages W HW) as (_ & _ & EW).
  match goal with
  | E : Numpy.size_of _ = _ |- _ =>
      unfold Numpy.size_of in E; cbn [fold_right] in E; rewrite EH, EW in E
  end.
  repeat split; try assumption. nia.
Qed.

Lemma classifier_runs n_classes K H W :
  18 <= H -> 18 <= W -> feature_side H * feature_side W = 9 ->
  forward_shape (classifier n_classes) [K; 1; H; W] = Some [K; n_classes].
Proof.
  intros HH HW Hside.
  destruct (feature_side_stages H HH) as (H1 & H2 & EH).
  destruct (feature_side_stages W HW) as (W1 & W2 & EW).
  unfold classifier.
  repeat (cbn -[Nat.leb Nat.eqb Nat.div Nat.sub Nat.add Nat.mul Numpy.size_of];
          match goal with
          | |- context [if ?b then _ else _] =>
              replace b with true
                by (symmetry;
                    repeat (apply andb_true_intro; split);
                    first [apply Nat.leb_le; lia | apply Nat.eqb_eq; lia
                          | apply Nat.eqb_eq; unfold Numpy.size_of;
                            cbn [fold_right]; rewrite EH, EW; nia])
          end).
  reflexivity.
Qed.

(** X1.  The classifier accepts a batch of shape (K,C,H,W) exactly when it
    has one channel, both sides are at least 18 and the sides left after the
    three convolutions and two poolings multiply to 9, the 64*3*3 inputs the
    linear layer is built for; it then returns (K, n_classes).  Every other
    four-axis shape is rejected. *)
Theorem classifier_accepted_inputs n_classes K C H W :
  forward_shape (classifier n_classes) [K; C; H; W]
  = if (C =? 1) && (18 <=? H) && (18 <=? W)
       && (feature_side H * feature_side W =? 9)
    then Some [K; n_classes] else None.
Proof.
  destruct ((C =? 1) && (18 <=? H) && (18 <=? W)
            && (feature_side H * feature_side W =? 9)) eqn:E.
  - guards_to_arith. subst C. apply classifier_runs; assumption.
  - destruct (forward_shape _ _) as [out|] eqn:Hrun; [|reflexivity].
    apply classifier_accepts in Hrun as (-> & HH & HW & Hside & _).
    apply Nat.leb_le in HH, HW. apply Nat.eqb_eq in Hside.
    rewrite HH, HW, Hside in E. discriminate E.
Qed.

Lemma feature_side_3 n : 18 <= n -> (feature_side n = 3 <-> 26 <= n <= 29).
Proof.
  intros Hn. unfold feature_side.
  assert (H1 : 8 <= (n - 2) / 2) by (apply half_ge; lia).
  assert (H2 : 3 <= ((n - 2) / 2 - 2) / 2) by (apply half_ge; lia).
  split.
  - intros E.
    assert (E2 : ((n - 2) / 2 - 2) / 2 = 5) by lia.
    pose proof (half_lower ((n - 2) / 2 - 2) 5) as L2.
    pose proof (half_upper ((n - 2) / 2 - 2) 5) as U2.
    assert (L1 : 12 <= (n - 2) / 2) by lia.
    assert (U1 : (n - 2) / 2 <= 13) by lia.
    apply half_lower in L1. apply half_upper in U1. lia.
  - intros [Hlo Hhi].
    assert (L1 : 12 <= (n - 2) / 2) by (apply half_ge; lia).
    assert (U1 : (n - 2) / 2 <= 13).
    { apply Nat.lt_succ_r, Nat.Div0.div_lt_upper_bound. lia. }
    assert (L2 : 5 <= ((n - 2) / 2 - 2) / 2) by (apply half_ge; lia).
    assert (U2 : ((n - 2) / 2 - 2) / 2 <= 5).
    { apply Nat.lt_succ_r, Nat.Div0.div_lt_upper_bound. lia. }
    lia.
Qed.

(** X2.  On square single-channel images the convolutional model runs
    exactly for the sides 26 to 29, which all end in 3 by 3 feature maps; any
    other side is rejected. *)
Theorem cnn_square_inputs K S :
  forward_shape CNNModel [K; 1; S; S] = Some [K; 10] <-> 26 <= S <= 29.
Proof.
  unfold CNNModel. rewrite classifier_accepted_inputs. cbn [Nat.eqb andb].
  destruct (Nat.leb_spec 18 S) as [HS|HS]; cbn [andb].
  - destruct (Nat.eqb_spec (feature_side S * feature_side S) 9) as [E|E].
    + split; [intros _|reflexivity]. apply feature_side_3; [exact HS | nia].
    + split; [discriminate|]. intros Hr. exfalso. apply E.
      apply (feature_side_3 S HS) in Hr. rewrite Hr. reflexivity.
  - split; [discriminate | lia].
Qed.

End CNNInputs.

(** ** [outputs.max(1)] *)

Section ArgmaxFacts.

Local Open Scope Q_scope.

(** What the scan knows after the prefix [pre]: the best score so far, where
    it stands, and that nothing before it reaches it. *)
Lemma argmax_from_scan (rest pre : list Q) (best_i : nat) (best : Q) :
  nth_error pre best_i = Some best ->
  Forall (fun x => x <= best) pre ->
  (forall j x, (j < best_i)%nat -> nth_error pre j = Some x -> x < best) ->
  exists m,
    nth_error (pre ++ rest) (argmax_from best_i best (length pre) rest) = Some m /\
    Forall (fun x => x <= m) (pre ++ rest) /\
    (forall j x, (j < argmax_from best_i best (length pre) rest)%nat ->
                 nth_error (pre ++ rest) j = Some x -> x < m).
Proof.
  revert pre best_i best.
  induction rest as [|x rest IH]; intros pre best_i best Hbest Hall Hfirst.
  - rewrite app_nil_r. simpl. eauto.
  - assert (Hlt : (best_i < length pre)%nat).
    { apply nth_error_Some. congruence. }
    cbn [argmax_from].
    replace (pre ++ x :: rest) with ((pre ++ [x]) ++ rest)
      by (rewrite <- app_assoc; reflexivity).
    replace (S (length pre)) with (length (pre ++ [x]))
      by (rewrite length_app; simpl; lia).
    destruct (Qltb best x) eqn:E.
    + apply Qltb_lt in E.
      replace (length pre) with (length pre + 0)%nat at 1 by lia.
      rewrite length_app. simpl length.
      replace (length pre + 0)%nat with (length pre) by lia.
      replace (length pre + 1)%nat with (length (pre ++ [x]))
        by (rewrite length_app; reflexivity).
      apply IH.
      * rewrite nth_error_app2 by lia. rewrite Nat.sub_diag. reflexivity.
      * apply Forall_app. split.
        -- eapply Forall_impl; [exact Hall|]. intros y Hy. simpl in Hy. lra.
        -- constructor; [apply Qle_refl | constructor].
      * intros j y Hj Hy. rewrite nth_error_app1 in Hy by exact Hj.
        rewrite List.Forall_forall in Hall.
        apply nth_error_In in Hy. specialize (Hall y Hy). lra.
    + apply Qltb_ge in E. apply IH.
      * rewrite nth_error_app1 by exact Hlt. exact Hbest.
      * apply Forall_app. split; [exact Hall|]. constructor; [exact E | constructor].
      * intros j y Hj Hy. rewrite nth_error_app1 in Hy by lia.
        eapply Hfirst; eassumption.
Qed.

(** X3.  On a non-empty row of scores the predicted class is the position of
    a maximal score, and of the first one: every score is at most the score
    at [argmax row], and every score before that position is strictly lower. *)
Theorem argmax_is_first_maximum (row : list Q) :
  row <> [] ->
  exists m,
    nth_error row (argmax row) = Some m /\
    Forall (fun x => x <= m) row /\
    (forall j x, (j < argmax row)%nat -> nth_error row j = Some x -> x < m).
Proof.
  destruct row as [|x rest]; [congruence|]. intros _.
  apply (argmax_from_scan rest [x] 0 x).
  - reflexivity.
  - constructor; [apply Qle_refl | constructor].
  - intros j y Hj. lia.
Qed.

Lemma argmax_is_first_maximum_witness :
  [1; 7; 3; 7] <> [] /\
  exists m,
    nth_error [1; 7; 3; 7] (argmax [1; 7; 3; 7]) = Some m /\
    Forall (fun x => x <= m) [1; 7; 3; 7] /\
    argmax [1; 7; 3; 7] = 1%nat.
Proof.
  split; [discriminate|].
  destruct (argmax_is_first_maximum [1; 7; 3; 7]) as (m & Hm & Hall & _);
    [discriminate|].
  exists m. auto.
Defined.

End ArgmaxFacts.

(** ** More on the training loop *)

Section TrainMore.

Context {F : Framework}.
Local Open Scope Q_scope.

Lemma eq_sum_le (predicted labels : list nat) :
  (eq_sum predicted labels <= length labels)%nat.
Proof.
  revert labels. induction predicted as [|p predicted IH]; intros [|l labels];
    simpl; try lia.
  specialize (IH labels). destruct (Nat.eqb p l); lia.
Qed.

(** Whatever the body of the loop returns. *)
Lemma train_batch_Some epoch len lr (s s' : TrainLoop) i (data : batch) :
  train_batch epoch len lr s i data = Some s' ->
  let out := call_model (train_world s) (map fst data) in
  total s' = (total s + length data)%nat /\
  (0 < total s')%nat /\
  correct s' = (correct s + eq_sum (map argmax out.1) (map snd data))%nat /\
  acc s' = Some (Qnat (correct s') * 100 / Qnat (total s')) /\
  losses s' = Ui.update (losses s) (cross_entropy out.1 (map snd data)) 1 /\
  train_world s'
  = print (TrainProgress i len epoch
             (Ui.sum (losses s') / Qnat (Ui.count (losses s')))
             (Qnat (correct s') * 100 / Qnat (total s')) lr)
      (optimizer_step (generator (train_world s)) data out.2).
Proof.
  unfold train_batch.
  destruct (call_model (train_world s) (map fst data)) as [outputs w1]. simpl.
  rewrite length_map.
  destruct (Nat.eqb_spec (total s + length data) 0) as [|Hpos]; [discriminate|].
  rewrite avg_Some by (simpl; lia). simpl.
  intros [= <-]. simpl. repeat split; try reflexivity. lia.
Qed.

(** Once a sample has been counted the body cannot fail any more. *)
Lemma train_batch_runs epoch len lr (s : TrainLoop) i (data : batch) :
  (0 < total s + length data)%nat ->
  exists s', train_batch epoch len lr s i data = Some s'.
Proof.
  intros Hpos. unfold train_batch.
  destruct (call_model (train_world s) (map fst data)) as [outputs w1]. simpl.
  rewrite length_map.
  destruct (Nat.eqb_spec (total s + length data) 0) as [|_]; [lia|].
  rewrite avg_Some by (simpl; lia). simpl. eauto.
Qed.

Lemma train_loop_runs epoch len lr (batches : list batch) i (s : TrainLoop) :
  (0 < total s)%nat ->
  exists s', for_enumerate (train_batch epoch len lr) i batches s = Some s'.
Proof.
  revert i s. induction batches as [|data rest IH]; intros i s Hpos.
  - simpl. eauto.
  - destruct (train_batch_runs epoch len lr s i data) as [s1 Hs1]; [lia|].
    cbn [for_enumerate]. rewrite Hs1. simpl. apply IH.
    apply train_batch_Some in Hs1. simpl in Hs1. tauto.
Qed.

(** X4.  The training loop raises (ZeroDivisionError at line 66) exactly when
    the first batch of the loader has no samples; a loader that is empty, or
    whose first batch has a sample, is processed to the end. *)
Theorem train_loop_fails_iff epoch len lr (w : World) (batches : list batch) :
  for_enumerate (train_batch epoch len lr) 0 batches (train_start w) = None
  <-> exists rest, batches = [] :: rest.
Proof.
  split.
  - destruct batches as [|[|x data] rest]; [discriminate | eauto |].
    intros Hnone. exfalso.
    destruct (train_batch_runs epoch len lr (train_start w) 0 (x :: data))
      as [s1 Hs1]; [simpl; lia|].
    cbn [for_enumerate] in Hnone. rewrite Hs1 in Hnone. simpl in Hnone.
    destruct (train_loop_runs epoch len lr rest 1 s1) as [s' Hs'].
    + apply train_batch_Some in Hs1. simpl in Hs1. tauto.
    + congruence.
  - intros [rest ->]. reflexivity.
Qed.

Lemma train_loop_bounds epoch len lr (batches : list batch) i (s s' : TrainLoop) :
  for_enumerate (train_batch epoch len lr) i batches s = Some s' ->
  (correct s <= total s)%nat ->
  (correct s' <= total s')%nat /\ (total s <= total s')%nat.
Proof.
  revert i s. induction batches as [|data rest IH]; intros i s Hrun Hle.
  - injection Hrun as <-. lia.
  - cbn [for_enumerate] in Hrun. apply bind_Some in Hrun as (s1 & Hstep & Hrun).
    apply train_batch_Some in Hstep. simpl in Hstep.
    destruct Hstep as (Ht & _ & Hc & _).
    pose proof (eq_sum_le
                  (map argmax (call_model (train_world s) (map fst data)).1)
                  (map snd data)) as Heq.
    rewrite length_map in Heq.
    destruct (IH _ _ Hrun) as [H1 H2]; lia.
Qed.

(** X5.  At every point of the training loop the number of correct
    predictions is at most the number of samples seen, and the running
    accuracy it holds after at least one batch is a percentage between 0 and
    100. *)
Theorem running_accuracy_bounds epoch len lr (w : World) (batches : list batch)
  (s : TrainLoop) :
  for_enumerate (train_batch epoch len lr) 0 batches (train_start w) = Some s ->
  (correct s <= total s)%nat /\
  total s = length (concat batches) /\
  (batches <> [] ->
   exists a, acc s = Some a /\ 0 <= a <= 100).
Proof.
  intros Hrun.
  destruct (train_loop_bounds _ _ _ _ _ _ _ Hrun) as [Hle _]; [simpl; lia|].
  split; [exact Hle|].
  assert (Htot : forall bs i s0 s1,
             for_enumerate (train_batch epoch len lr) i bs s0 = Some s1 ->
             total s1 = (total s0 + length (concat bs))%nat).
  { induction bs as [|data rest IH]; intros i s0 s1 H.
    - injection H as <-. simpl. lia.
    - cbn [for_enumerate] in H. apply bind_Some in H as (s2 & Hstep & H).
      apply train_batch_Some in Hstep. simpl in Hstep.
      rewrite (IH _ _ _ H). simpl. rewrite length_app. lia. }
  split; [rewrite (Htot _ _ _ _ Hrun); reflexivity|].
  intros Hne.
  destruct (exists_last Hne) as (pre & data & ->).
  rewrite for_enumerate_app in Hrun.
  apply bind_Some in Hrun as (s1 & _ & Hlast).
  cbn [for_enumerate] in Hlast. apply bind_Some in Hlast as (s2 & Hstep & Hs).
  injection Hs as ->.
  apply train_batch_Some in Hstep. simpl in Hstep.
  destruct Hstep as (_ & Hpos & _ & Hacc & _).
  eexists. split; [exact Hacc|].
  assert (Hq : 0 < Qnat (total s)) by (apply Qnat_pos; exact Hpos).
  assert (Hc : 0 <= Qnat (correct s)) by (unfold Qnat, Qle; simpl; lia).
  assert (Hct : Qnat (correct s) <= Qnat (total s))
    by (unfold Qnat, Qle; simpl; lia).
  split.
  - apply Qle_shift_div_l; [exact Hq | nra].
  - apply Qle_shift_div_r; [exact Hq | nra].
Qed.

End TrainMore.

Lemma running_accuracy_bounds_witness :
  exists s a,
    for_enumerate (train_batch 1 1 (1 # 1000)) 0 (toy_train_loader 1)
      (train_start toy_world) = Some s /\
    acc s = Some a /\ (0 <= a <= 100)%Q.
Proof.
  assert (Hrun : exists s,
             for_enumerate (train_batch 1 1 (1 # 1000)) 0 (toy_train_loader 1)
               (train_start toy_world) = Some s).
  { vm_compute. eexists. reflexivity. }
  destruct Hrun as [s Hrun]. exists s.
  destruct (running_accuracy_bounds 1%nat 1%nat (1 # 1000) toy_world
              (toy_train_loader 1) s Hrun) as (_ & _ & Hacc).
  destruct Hacc as (a & Ha & Hb); [discriminate|].
  exists a. auto.
Defined.

(** ** What [train] reports and returns *)

Section TrainReport.

Context {F : Framework}.
Local Open Scope Q_scope.

Lemma train_losses_same (batches : list batch) (w w' : World) :
  same_but_stdout w w' ->
  train_losses w batches = train_losses w' batches.
Proof.
  revert w w'. induction batches as [|data rest IH]; intros w w' Hsame;
    [reflexivity|].
  cbn [train_losses].
  destruct (call_model_same w w' (map fst data) Hsame) as [Hout Hw].
  destruct (call_model w (map fst data)) as [outputs w1].
  destruct (call_model w' (map fst data)) as [outputs' w1'].
  simpl in Hout, Hw. subst outputs'.
  f_equal. apply IH.
  destruct Hsame as (_ & _ & _ & Hg & _). rewrite <- Hg.
  apply optimizer_step_same. exact Hw.
Qed.

(** The loss meter after the loop: one update of weight one per batch. *)
Lemma train_loop_losses epoch len lr (batches : list batch) i (s s' : TrainLoop) :
  for_enumerate (train_batch epoch len lr) i batches s = Some s' ->
  losses s'
  = Ui.updates (losses s)
      (map (fun l => (l, 1%nat)) (train_losses (train_world s) batches)).
Proof.
  revert i s. induction batches as [|data rest IH]; intros i s Hrun.
  - injection Hrun as <-. reflexivity.
  - cbn [for_enumerate] in Hrun. apply bind_Some in Hrun as (s1 & Hstep & Hrun).
    apply train_batch_Some in Hstep. simpl in Hstep.
    destruct Hstep as (_ & _ & _ & _ & Hl & Hw).
    rewrite (IH _ _ Hrun), Hl. cbn [train_losses].
    rewrite (train_losses_same rest (train_world s1)
               (optimizer_step (generator (train_world s)) data
                  (call_model (train_world s) (map fst data)).2))
      by (rewrite Hw; apply same_but_stdout_sym, same_but_stdout_print).
    destruct (call_model (train_world s) (map fst data)) as [outputs w1].
    reflexivity.
Qed.

Lemma weighted_sum_ones (ls : list Q) :
  Ui.weighted_sum (map (fun l => (l, 1%nat)) ls) == fold_right Qplus 0 ls /\
  Ui.total_weight (map (fun l => (l, 1%nat)) ls) = length ls.
Proof.
  induction ls as [|l ls [IH1 IH2]]; simpl; [split; reflexivity|].
  rewrite IH1, IH2. split; [|reflexivity].
  unfold Qnat. simpl. ring.
Qed.

(** X6.  The cross-entropy the training loop prints with batch N is the plain
    mean of the N batch losses so far, each batch counting once whatever its
    size (the meter is updated with the default weight 1). *)
Theorem running_loss_is_batch_mean epoch len lr (w : World)
  (batches : list batch) (s : TrainLoop) :
  for_enumerate (train_batch epoch len lr) 0 batches (train_start w) = Some s ->
  batches <> [] ->
  exists ce a,
    last (stdout (train_world s))
    = Some (TrainProgress (length batches - 1) len epoch ce a lr) /\
    ce == fold_right Qplus 0 (train_losses (set_training true w) batches)
          / Qnat (length batches).
Proof.
  intros Hrun Hne.
  pose proof (train_loop_losses _ _ _ _ _ _ _ Hrun) as Hlosses.
  simpl in Hlosses.
  destruct (weighted_sum_ones (train_losses (set_training true w) batches))
    as [Hsum Hcount].
  assert (Hlen : length (train_losses (set_training true w) batches)
                 = length batches).
  { clear. generalize (set_training true w).
    induction batches as [|data rest IH]; intros w0; [reflexivity|].
    cbn [train_losses].
    destruct (call_model w0 (map fst data)). simpl. rewrite IH. reflexivity. }
  destruct (exists_last Hne) as (pre & data & Hsplit).
  pose proof Hrun as Hrun'. rewrite Hsplit, for_enumerate_app in Hrun'.
  apply bind_Some in Hrun' as (s1 & _ & Hlast).
  cbn [for_enumerate] in Hlast. apply bind_Some in Hlast as (s2 & Hstep & Hs).
  injection Hs as ->.
  apply train_batch_Some in Hstep. simpl in Hstep.
  destruct Hstep as (_ & _ & _ & _ & _ & Hw).
  eexists. eexists. split.
  - rewrite Hw. simpl. rewrite last_snoc. repeat f_equal.
    rewrite Hsplit, length_app. simpl. lia.
  - rewrite Hlosses, updates_sum, updates_count, Hsum, Hcount, Hlen. simpl.
    apply Qdiv_comp; [ring | reflexivity].
Qed.

(** X7.  [train] returns the evaluation of the parameters it leaves behind:
    evaluating again right after it gives the same (top1, top5).  It leaves
    the model in eval mode and writes no file. *)
Theorem train_returns_final_evaluation (w w' : World)
  (train_loader test_loader : list batch) epoch r :
  train w train_loader test_loader epoch = Some (r, w') ->
  option_map fst (test w' test_loader) = Some r /\
  training w' = false /\
  files w' = files w.
Proof.
  intros Hrun. pose proof (train_files _ _ _ _ _ _ Hrun) as Hfiles.
  unfold train in Hrun. apply bind_Some in Hrun as (s & _ & Htest).
  pose proof (test_same_but_stdout _ _ _ _ Htest) as (Hp & Ht & _).
  simpl in Hp, Ht.
  split; [|split; [congruence | exact Hfiles]].
  rewrite (test_result_params_only w' (train_world s)) by congruence.
  rewrite Htest. reflexivity.
Qed.

End TrainReport.

Lemma running_loss_is_batch_mean_witness :
  exists s ce a,
    for_enumerate (train_batch 1 1 (1 # 1000)) 0 (toy_train_loader 1)
      (train_start toy_world) = Some s /\
    toy_train_loader 1 <> [] /\
    last (stdout (train_world s))
    = Some (TrainProgress (length (toy_train_loader 1) - 1) 1 1 ce a (1 # 1000)) /\
    (ce == fold_right Qplus 0
             (train_losses (set_training true toy_world) (toy_train_loader 1))
           / Qnat (length (toy_train_loader 1)))%Q.
Proof.
  assert (Hrun : exists s,
             for_enumerate (train_batch 1 1 (1 # 1000)) 0 (toy_train_loader 1)
               (train_start toy_world) = Some s).
  { vm_compute. eexists. reflexivity. }
  destruct Hrun as [s Hrun].
  assert (Hne : toy_train_loader 1 <> []) by discriminate.
  destruct (running_loss_is_batch_mean 1%nat 1%nat (1 # 1000) toy_world
              (toy_train_loader 1) s Hrun Hne) as (ce & a & Hlast & Hce).
  exists s, ce, a. auto.
Defined.

Lemma train_returns_final_evaluation_witness :
  exists r w',
    train toy_world (toy_train_loader 1) toy_test_loader 1 = Some (r, w') /\
    option_map fst (test w' toy_test_loader) = Some r /\
    training w' = false.
Proof.
  assert (Hrun : exists r w',
             train toy_world (toy_train_loader 1) toy_test_loader 1 = Some (r, w')).
  { vm_compute. eexists. eexists. reflexivity. }
  destruct Hrun as (r & w' & Hrun). exists r, w'.
  split; [exact Hrun|].
  destruct (train_returns_final_evaluation toy_world w' (toy_train_loader 1)
              toy_test_loader 1%nat r Hrun) as (H1 & H2 & _).
  auto.
Defined.

(** ** More on the evaluation loop *)

Section EvalMore.

Context {F : Framework}.
Local Open Scope Q_scope.

Lemma test_dataset_accuracy (w : World) (test_loader : list batch) :
  test_loader <> [] ->
  Forall (fun data => data <> []) test_loader ->
  exists avg1 avg5 w',
    test w test_loader = Some (avg1, avg5, w') /\
    avg1 == dataset_accuracy (state_dict w) 1 (concat test_loader) /\
    avg5 == dataset_accuracy (state_dict w) 5 (concat test_loader).
Proof.
  intros Hne Hall.
  pose proof (test_eval_meters w test_loader) as Htest.
  rewrite (eval_meters_updates _ _ _ _ Hall) in Htest.
  assert (Hsize : (0 < length (concat test_loader))%nat).
  { destruct test_loader as [|data rest]; [congruence|].
    apply Forall_inv in Hall.
    simpl. rewrite length_app. destruct data; [congruence | simpl; lia]. }
  assert (Hmean : forall k,
    exists a, Ui.avg (Ui.updates Ui.fresh (meter_calls (state_dict w) k test_loader))
              = Some a /\ a == dataset_accuracy (state_dict w) k (concat test_loader)).
  { intros k.
    destruct (avg_updates_fresh (meter_calls (state_dict w) k test_loader))
      as (a & Ha & Heq).
    { rewrite total_weight_meter_calls. exact Hsize. }
    exists a. split; [exact Ha|].
    rewrite Heq, weighted_sum_meter_calls, total_weight_meter_calls by exact Hall.
    reflexivity. }
  destruct (Hmean 1%nat) as (a1 & Ha1 & Heq1).
  destruct (Hmean 5%nat) as (a5 & Ha5 & Heq5).
  rewrite Ha1, Ha5 in Htest. destruct Htest as (w' & Hrun & _).
  exists a1, a5, w'. auto.
Qed.

(** X8.  The result of the evaluation does not depend on how the evaluation
    set is cut into batches: two loaders of non-empty batches that yield the
    same samples in the same order give equal top1 and equal top5. *)
Theorem test_independent_of_batching (w : World) (loader loader' : list batch) :
  loader <> [] ->
  Forall (fun data => data <> []) loader ->
  Forall (fun data => data <> []) loader' ->
  concat loader = concat loader' ->
  exists avg1 avg5 w1 avg1' avg5' w2,
    test w loader = Some (avg1, avg5, w1) /\
    test w loader' = Some (avg1', avg5', w2) /\
    avg1 == avg1' /\ avg5 == avg5'.
Proof.
  intros Hne Hall Hall' Hsame.
  assert (Hne' : loader' <> []).
  { intros ->. destruct loader as [|data rest]; [congruence|].
    apply Forall_inv in Hall. destruct data; [congruence | discriminate]. }
  destruct (test_dataset_accuracy w loader Hne Hall) as (a1 & a5 & w1 & H & E1 & E5).
  destruct (test_dataset_accuracy w loader' Hne' Hall')
    as (b1 & b5 & w2 & H' & E1' & E5').
  exists a1, a5, w1, b1, b5, w2.
  split; [exact H|]. split; [exact H'|]. split.
  - rewrite E1, E1', Hsame. reflexivity.
  - rewrite E5, E5', Hsame. reflexivity.
Qed.

Lemma in_topk_mono k k' scores label :
  (k <= k')%nat -> Ui.in_topk k scores label = true ->
  Ui.in_topk k' scores label = true.
Proof.
  intros Hk. unfold Ui.in_topk.
  destruct (nth_error scores label); [|discriminate].
  rewrite !Nat.ltb_lt. lia.
Qed.

Lemma topk_hits_bounds (p : params) k k' (samples : list (image * nat)) :
  (k <= k')%nat ->
  (topk_hits p k samples <= topk_hits p k' samples <= length samples)%nat.
Proof.
  intros Hk. unfold topk_hits.
  induction samples as [|[x l] samples IH]; simpl; [lia|].
  destruct (Ui.in_topk k (eval_scores p x) l) eqn:E.
  - rewrite (in_topk_mono _ _ _ _ Hk E). simpl. lia.
  - destruct (Ui.in_topk k' (eval_scores p x) l); simpl; lia.
Qed.

(** X9.  On a non-empty evaluation set of non-empty batches the returned
    accuracies are percentages and top1 never exceeds top5:
    0 <= top1 <= top5 <= 100. *)
Theorem test_top1_le_top5 (w : World) (test_loader : list batch) :
  test_loader <> [] ->
  Forall (fun data => data <> []) test_loader ->
  exists avg1 avg5 w',
    test w test_loader = Some (avg1, avg5, w') /\
    0 <= avg1 /\ avg1 <= avg5 /\ avg5 <= 100.
Proof.
  intros Hne Hall.
  destruct (test_dataset_accuracy w test_loader Hne Hall)
    as (a1 & a5 & w' & Hrun & E1 & E5).
  exists a1, a5, w'. split; [exact Hrun|].
  cut (0 <= dataset_accuracy (state_dict w) 1 (concat test_loader) /\
       dataset_accuracy (state_dict w) 1 (concat test_loader)
       <= dataset_accuracy (state_dict w) 5 (concat test_loader) /\
       dataset_accuracy (state_dict w) 5 (concat test_loader) <= 100).
  { intros (B1 & B2 & B3). rewrite E1, E5. auto. }
  unfold dataset_accuracy.
  set (samples := concat test_loader).
  assert (Hsize : (0 < length samples)%nat).
  { subst samples. destruct test_loader as [|data rest]; [congruence|].
    apply Forall_inv in Hall.
    simpl. rewrite length_app. destruct data; [congruence | simpl; lia]. }
  pose proof (topk_hits_bounds (state_dict w) 1 5 samples) as [H15 H5]; [lia|].
  assert (Hq : 0 < Qnat (length samples)) by (apply Qnat_pos; exact Hsize).
  assert (H1q : 0 <= Qnat (topk_hits (state_dict w) 1 samples))
    by (unfold Qnat, Qle; simpl; lia).
  assert (H15q : Qnat (topk_hits (state_dict w) 1 samples)
                 <= Qnat (topk_hits (state_dict w) 5 samples))
    by (unfold Qnat, Qle; simpl; lia).
  assert (H5q : Qnat (topk_hits (state_dict w) 5 samples) <= Qnat (length samples))
    by (unfold Qnat, Qle; simpl; lia).
  split; [|split].
  - apply Qle_shift_div_l; [exact Hq | nra].
  - apply Qle_shift_div_l; [exact Hq|].
    assert (Eq : 100 * Qnat (topk_hits (state_dict w) 1 samples)
                 / Qnat (length samples) * Qnat (length samples)
                 == 100 * Qnat (topk_hits (state_dict w) 1 samples))
      by (field; lra).
    rewrite Eq. nra.
  - apply Qle_shift_div_r; [exact Hq | nra].
Qed.

End EvalMore.

Lemma test_independent_of_batching_witness :
  exists avg1 avg5 w1 avg1' avg5' w2,
    test toy_world_trained toy_test_loader = Some (avg1, avg5, w1) /\
    test toy_world_trained [[(0, 0)]; [(1, 0)]; [(2, 0)]]%nat
    = Some (avg1', avg5', w2) /\
    (avg1 == avg1')%Q /\ (avg5 == avg5')%Q.
Proof.
  apply (test_independent_of_batching toy_world_trained toy_test_loader
           [[(0, 0)]; [(1, 0)]; [(2, 0)]]%nat).
  - discriminate.
  - repeat constructor; discriminate.
  - repeat constructor; discriminate.
  - reflexivity.
Defined.

Lemma test_top1_le_top5_witness :
  exists avg1 avg5 w',
    test toy_world toy_test_loader = Some (avg1, avg5, w') /\
    (0 <= avg1)%Q /\ (avg1 <= avg5)%Q /\ (avg5 <= 100)%Q.
Proof.
  apply (test_top1_le_top5 toy_world toy_test_loader).
  - discriminate.
  - repeat constructor; discriminate.
Defined.

(** ** More on [plot_data] *)

Section PlotMore.

Import Numpy Viz.
Local Open Scope Q_scope.

(** X10.  When the array holds two distinct values, all of magnitude at
    most 2^126 (so that maximum minus minimum stays finite in floating point),
    the normalisation is onto the ends of [0,1]: some entry becomes 0 (a
    minimum) and some entry becomes 1 (a maximum); shape and number of
    entries are kept. *)
Theorem normalized_attains_bounds (maps : ndarray Q) :
  Forall finite_range (data maps) ->
  (exists x y, In x (data maps) /\ In y (data maps) /\ ~ x == y) ->
  exists r v0 v1,
    normalized maps = Some r /\
    shape r = shape maps /\ length (data r) = length (data maps) /\
    In (Some v0) (data r) /\ v0 == 0 /\
    In (Some v1) (data r) /\ v1 == 1.
Proof.
  intros _ (x & y & Hx & Hy & Hxy).
  assert (Hne : data maps <> []) by (intros E; rewrite E in Hx; exact Hx).
  destruct (normalized_unfold maps Hne) as (lo & hi & Hlo & Hhi & Hn).
  pose proof (divisor_zero_iff _ _ _ Hlo Hhi) as Hzero.
  destruct (divisor_bounds _ _ _ Hlo Hhi) as (Hnn & _ & x1 & Hx1 & Hx1eq).
  assert (Hnz : ~ hi == 0).
  { intros Hz. apply Hxy. apply Hzero; assumption. }
  apply amin_spec in Hlo as [Hin _].
  eexists. exists ((lo - lo) / hi), ((x1 - lo) / hi).
  split; [exact Hn|]. simpl.
  split; [reflexivity|]. split; [apply length_map|].
  split; [|split; [|split]].
  - apply in_map_iff. exists lo. split; [apply divide_Some; exact Hnz | exact Hin].
  - field. exact Hnz.
  - apply in_map_iff. exists x1. split; [apply divide_Some; exact Hnz | exact Hx1].
  - rewrite <- Hx1eq. field. exact Hnz.
Qed.

Lemma normalized_attains_bounds_witness :
  Forall finite_range (data sample_kernel) /\
  exists r v0 v1,
    normalized sample_kernel = Some r /\
    In (Some v0) (data r) /\ v0 == 0 /\
    In (Some v1) (data r) /\ v1 == 1.
Proof.
  assert (Hfin : Forall finite_range (data sample_kernel)).
  { unfold sample_kernel. simpl.
    repeat (constructor;
            [split; apply Qle_bool_iff; vm_compute; reflexivity|]).
    constructor. }
  split; [exact Hfin|].
  destruct (normalized_attains_bounds sample_kernel Hfin)
    as (r & v0 & v1 & Hr & _ & _ & H0 & E0 & H1 & E1).
  - exists 1, 2. repeat split.
    + simpl. auto.
    + simpl. auto.
    + intros H. discriminate H.
  - exists r, v0, v1. auto.
Defined.





End PlotMore.

(** ** What [plot_data] and [viz_features] produce *)

Section FigureFacts.

Import Numpy Viz.
Local Open Scope nat_scope.

Lemma chunks_length {A} n c (l : list A) : length (chunks n c l) = c.
Proof.
  revert l. induction c as [|c IH]; intros l; simpl; [reflexivity|].
  rewrite IH. reflexivity.
Qed.

Lemma chunks_block_length {A} n c (l : list A) :
  c * n <= length l -> Forall (fun blk => length blk = n) (chunks n c l).
Proof.
  revert l. induction c as [|c IH]; intros l Hlen; simpl; constructor.
  - rewrite length_firstn. lia.
  - apply IH. rewrite length_skipn. lia.
Qed.

Lemma normalized_Some (maps : ndarray Q) :
  data maps <> [] ->
  exists r, normalized maps = Some r /\ shape r = shape maps /\
            length (data r) = length (data maps).
Proof.
  intros Hne. destruct (normalized_unfold maps Hne) as (lo & hi & _ & _ & Hn).
  eexists. split; [exact Hn|]. simpl. split; [reflexivity | apply length_map].
Qed.

Lemma normalized_None (maps : ndarray Q) :
  data maps = [] -> normalized maps = None.
Proof. intros E. unfold normalized, shifted. rewrite E. reflexivity. Qed.

(** When the drawing loop gets through. *)
Lemma draw_tiles_Some dim i (tiles : list (ndarray (option Q))) :
  draw_tiles dim i tiles = Some tt <->
  (tiles = [] \/ i + length tiles <= dim * dim) /\
  Forall (fun m => imshow_ok (shape m) = true) tiles.
Proof.
  revert i. induction tiles as [|m rest IH]; intros i; simpl.
  - split; [auto | reflexivity].
  - destruct (Nat.leb_spec (i + 1) (dim * dim)) as [Hle|Hgt].
    + destruct (imshow_ok (shape m)) eqn:Hok.
      * rewrite IH. split.
        -- intros [[->|Hlen] Hall]; (split; [right; simpl; lia | auto]).
        -- intros [[Hnil|Hlen] Hall]; [discriminate|].
           apply Forall_inv_tail in Hall. split; [right; lia | exact Hall].
      * split; [discriminate|]. intros [_ Hall].
        apply Forall_inv in Hall. congruence.
    + split; [discriminate|]. intros [[Hnil|Hlen] _]; [discriminate | lia].
Qed.

Lemma draw_Some dim t (tiles : list (ndarray (option Q))) fig :
  draw dim t tiles = Some fig <->
  fig = {| fig_title := t; fig_dim := dim; fig_tiles := tiles |} /\
  1 <= length tiles <= dim * dim /\
  Forall (fun m => imshow_ok (shape m) = true) tiles.
Proof.
  unfold draw. split.
  - intros H. apply bind_Some in H as ([] & Hloop & H).
    apply draw_tiles_Some in Hloop as [Hlen Hall].
    destruct tiles as [|m rest]; [discriminate|]. injection H as <-.
    split; [reflexivity|]. split; [|exact Hall].
    destruct Hlen as [Hnil|Hlen]; [discriminate | simpl in *; lia].
  - intros (-> & Hlen & Hall).
    assert (Hloop : draw_tiles dim 0 tiles = Some tt).
    { apply draw_tiles_Some. split; [right; lia | exact Hall]. }
    rewrite Hloop. simpl. destruct tiles; [simpl in Hlen; lia | reflexivity].
Qed.

(** The figure of a successful [plot_data]. *)
Lemma plot_data_tiles (maps : ndarray Q) (dim : nat) (t : title) (fig : figure) :
  plot_data maps dim t = Some fig ->
  fig_title fig = t /\ fig_dim fig = dim /\
  exists d sh,
    shape maps = d :: sh /\ 1 <= d <= dim * dim /\ imshow_ok sh = true /\
    length (fig_tiles fig) = d /\
    Forall (fun tile =>
              shape tile = sh /\
              (well_formed maps = true -> well_formed tile = true))
           (fig_tiles fig).
Proof.
  unfold plot_data. intros H.
  apply bind_Some in H as (r & Hr & H).
  apply bind_Some in H as (tiles & Htiles & H).
  apply draw_Some in H as (-> & Hlen & Hok). simpl.
  split; [reflexivity|]. split; [reflexivity|].
  assert (Hne : data maps <> []).
  { intros E. rewrite (normalized_None maps E) in Hr. discriminate Hr. }
  destruct (normalized_Some maps Hne) as (r' & Hr' & Hsh & Hdata).
  rewrite Hr in Hr'. injection Hr' as <-.
  unfold rows in Htiles. rewrite Hsh in Htiles.
  destruct (shape maps) as [|d sh] eqn:Hshape; [discriminate|].
  injection Htiles as <-.
  rewrite length_map, chunks_length in Hlen.
  exists d, sh. split; [reflexivity|]. split; [exact Hlen|].
  split.
  { destruct (chunks (size_of sh) d (data r)) as [|blk blks] eqn:E.
    - apply (f_equal length) in E. rewrite chunks_length in E. simpl in E. lia.
    - apply Forall_inv in Hok. exact Hok. }
  split; [rewrite length_map; apply chunks_length|].
  assert (Hwf : well_formed maps = true ->
                length (data maps) = d * size_of sh).
  { unfold well_formed. rewrite Hshape. intros Hw.
    apply Nat.eqb_eq in Hw. exact Hw. }
  apply Forall_map. apply Forall_forall. intros blk Hblk.
  split; [reflexivity|]. intros Hw. apply Hwf in Hw.
  pose proof (chunks_block_length (size_of sh) d (data r)) as Hall.
  rewrite Forall_forall in Hall.
  unfold well_formed. apply Nat.eqb_eq. apply Hall; [|exact Hblk].
  rewrite Hdata, Hw. reflexivity.
Qed.



Lemma plot_data_title (maps : ndarray Q) dim t fig :
  plot_data maps dim t = Some fig -> fig_title fig = t /\ fig_dim fig = dim.
Proof.
  intros H. apply plot_data_tiles in H as (Ht & Hd & _). auto.
Qed.

Lemma viz_loop_length feature_num first pairs figs :
  viz_loop feature_num first pairs = Some figs ->
  length figs = 2 * length pairs.
Proof.
  revert first figs. induction pairs as [|[maps kernel] pairs IH];
    intros first figs H.
  - injection H as <-. reflexivity.
  - simpl in H.
    apply bind_Some in H as (figs0 & H0 & H).
    apply bind_Some in H as (more & Hmore & H).
    injection H as <-.
    destruct (viz_layer_Some _ _ _ _ _ H0)
      as (? & fm & ? & ? & fk & _ & _ & _ & _ & _ & ->).
    rewrite length_app, (IH _ _ Hmore). simpl. lia.
Qed.

(** X13.  When [viz_features] succeeds it shows two figures per captured
    layer, as many layers as both lists have, in layer order: figure 2n is
    titled with the feature maps of layer n on a grid of side
    floor(sqrt(number of maps)), figure 2n+1 with the kernel weights of layer
    n and the selected feature number. *)
Theorem viz_features_figures (feature_num : Z)
  (features kernels : list (ndarray Q)) (figs : list figure) :
  viz_features feature_num features kernels = Some figs ->
  length figs = 2 * Nat.min (length features) (length kernels) /\
  forall n maps kernel,
    nth_error (combine features kernels) n = Some (maps, kernel) ->
    exists fig_maps fig_kernel d,
      nth_error figs (2 * n) = Some fig_maps /\
      nth_error figs (2 * n + 1) = Some fig_kernel /\
      fig_title fig_maps = FeatureMaps n /\
      len (squeeze maps) = Some d /\ fig_dim fig_maps = Nat.sqrt d /\
      fig_title fig_kernel = KernelWeights n feature_num.
Proof.
  unfold viz_features. intros Hviz. split.
  - rewrite (viz_loop_length _ _ _ _ Hviz), length_combine. reflexivity.
  - intros n maps kernel Hnth.
    destruct (viz_loop_nth _ _ _ _ Hviz _ _ _ Hnth) as (fm & fk & Hlayer & Hm & Hk).
    simpl in Hlayer.
    destruct (viz_layer_Some _ _ _ _ _ Hlayer)
      as (d & fm' & k & m & fk' & Hd & Hpm & _ & _ & Hpk & Heq).
    injection Heq as -> ->.
    apply plot_data_title in Hpm as [Ht Hdim].
    apply plot_data_title in Hpk as [Ht' _].
    exists fm', fk', d. auto 10.
Qed.

Lemma viz_features_figures_witness :
  exists figs,
    viz_features 0 [sample_maps] [sample_kernel] = Some figs /\
    length figs = 2 * Nat.min (length [sample_maps]) (length [sample_kernel]).
Proof.
  assert (Hrun : exists figs, viz_features 0 [sample_maps] [sample_kernel] = Some figs).
  { vm_compute. eexists. reflexivity. }
  destruct Hrun as [figs Hrun]. exists figs. split; [exact Hrun|].
  apply (viz_features_figures 0 [sample_maps] [sample_kernel] figs Hrun).
Defined.

End FigureFacts.

(** ** Which kernels [viz_features] can show *)

Section KernelIndex.

Import Numpy Viz CNN.
Local Open Scope nat_scope.

Lemma normalize_index_range j d f :
  normalize_index j d = Some f -> (- Z.of_nat d <= j < Z.of_nat d)%Z.
Proof.
  unfold normalize_index.
  destruct ((0 <=? j)%Z && (j <? Z.of_nat d)%Z) eqn:E1.
  - intros _. apply andb_true_iff in E1 as [H1 H2]. lia.
  - destruct ((- Z.of_nat d <=? j)%Z && (j <? 0)%Z) eqn:E2; [|discriminate].
    intros _. apply andb_true_iff in E2 as [H1 H2]. lia.
Qed.

(** A feature number outside the input channels of any visited layer is an
    IndexError at line 138, and the whole routine fails. *)
Lemma viz_features_index_error (feature_num : Z)
  (features kernels : list (ndarray Q)) n maps kernel o i h w :
  nth_error (combine features kernels) n = Some (maps, kernel) ->
  shape kernel = [o; i; h; w] ->
  ~ (- Z.of_nat i <= feature_num < Z.of_nat i)%Z ->
  viz_features feature_num features kernels = None.
Proof.
  intros Hnth Hshape Hout.
  destruct (viz_features feature_num features kernels) as [figs|] eqn:Hviz;
    [|reflexivity].
  exfalso. apply Hout. unfold viz_features in Hviz.
  destruct (viz_loop_nth _ _ _ _ Hviz _ _ _ Hnth) as (fm & fk & Hlayer & _).
  destruct (viz_layer_Some _ _ _ _ _ Hlayer)
    as (? & ? & k & ? & ? & _ & _ & Hk & _).
  destruct (index_axis1_Some _ _ _ Hk) as (o' & i' & h' & w' & f & Hsh & Hf & _).
  rewrite Hshape in Hsh. injection Hsh as <- <- <- <-.
  eapply normalize_index_range. exact Hf.
Qed.

(** X14.  The first convolution of the script's own model has a single input
    channel, so on that model the visualisation can only run with
    --feature-num 0 (or -1): with any other value the kernel slice of the
    first captured layer raises and no kernel is ever shown. *)
Theorem cnn_viz_needs_feature_0 (feature_num : Z)
  (features kernels : list (ndarray Q)) (maps0 kernel0 : ndarray Q) (conv0 : layer) :
  head (List.filter is_conv CNNModel) = Some conv0 ->
  weight_shape conv0 = Some (shape kernel0) ->
  feature_num <> 0%Z -> feature_num <> (-1)%Z ->
  viz_features feature_num (maps0 :: features) (kernel0 :: kernels) = None.
Proof.
  intros Hconv Hshape H0 H1.
  injection Hconv as <-. simpl in Hshape. injection Hshape as Hshape.
  apply (viz_features_index_error feature_num _ _ 0 maps0 kernel0 64 1 3 3).
  - reflexivity.
  - symmetry. exact Hshape.
  - lia.
Qed.

Lemma cnn_viz_needs_feature_0_witness :
  viz_features 1 [sample_maps]
    [{| shape := [64; 1; 3; 3]; data := repeat 1%Q 576 |}] = None.
Proof.
  apply (cnn_viz_needs_feature_0 1 [] [] sample_maps
           {| shape := [64; 1; 3; 3]; data := repeat 1%Q 576 |} (Conv2d 1 64 3));
    [reflexivity | reflexivity | discriminate | discriminate].
Defined.

Lemma squeeze_no_unit {A} (a : ndarray A) :
  Forall (fun d => d <> 1) (shape a) -> squeeze a = a.
Proof.
  intros H. destruct a as [sh dat]. unfold squeeze. simpl in *. f_equal.
  induction H as [|d sh Hd _ IH]; simpl; [reflexivity|].
  destruct (Nat.eqb_spec d 1); [contradiction|]. simpl. rewrite IH. reflexivity.
Qed.

Lemma viz_layer_kernel_figure (feature_num : Z) (layer : nat)
  (maps kernel : ndarray Q) (fig_maps fig_kernel : figure) (o i h w : nat) :
  viz_layer feature_num layer maps kernel = Some [fig_maps; fig_kernel] ->
  shape kernel = [o; i; h; w] ->
  o <> 1 -> h <> 1 -> w <> 1 ->
  Nat.sqrt o * Nat.sqrt o = o /\
  fig_dim fig_kernel = Nat.sqrt o /\
  length (fig_tiles fig_kernel) = o /\
  Forall (fun tile => shape tile = [h; w]) (fig_tiles fig_kernel).
Proof.
  intros Hlayer Hshape Ho Hh Hw.
  destruct (viz_layer_Some _ _ _ _ _ Hlayer)
    as (? & fm & k & m & fk & _ & _ & Hk & Hm & Hplot & Heq).
  injection Heq as -> ->.
  destruct (index_axis1_Some _ _ _ Hk) as (o' & i' & h' & w' & f & Hsh & _ & Hshk).
  rewrite Hshape in Hsh. injection Hsh as <- <- <- <-.
  rewrite squeeze_no_unit in Hm, Hplot
    by (rewrite Hshk; repeat constructor; assumption).
  unfold len in Hm. rewrite Hshk in Hm. injection Hm as <-.
  destruct (plot_data_tiles k (Nat.sqrt o) (KernelWeights layer feature_num)
              _ Hplot) as (_ & Hdim & d & sh & Hd & Hrange & _ & Hlen & Hall).
  rewrite Hshk in Hd. injection Hd as <- <-.
  pose proof (Nat.sqrt_specif o) as [Hlow _].
  split; [lia|]. split; [exact Hdim|]. split; [exact Hlen|].
  eapply Forall_impl; [exact Hall|]. intros tile [Ht _]. exact Ht.
Qed.

(** X15.  For a layer whose weight has shape (o, i, h, w) with o, h and w
    other than 1: when the number o of output features is not a perfect
    square, the kernel plot asks for more subplots than the floor(sqrt(o))
    squared cells of its grid and the routine raises; when the layer is
    shown, o is a perfect square and the kernel figure has one tile per
    output feature, o tiles of shape (h, w), filling the grid of side sqrt(o)
    (64 tiles on 8 by 8 for the script's model). *)
Theorem viz_kernel_grid (feature_num : Z) (layer : nat)
  (maps kernel : ndarray Q) (o i h w : nat) :
  shape kernel = [o; i; h; w] ->
  o <> 1 -> h <> 1 -> w <> 1 ->
  (Nat.sqrt o * Nat.sqrt o <> o ->
   viz_layer feature_num layer maps kernel = None) /\
  (forall fig_maps fig_kernel,
     viz_layer feature_num layer maps kernel = Some [fig_maps; fig_kernel] ->
     Nat.sqrt o * Nat.sqrt o = o /\
     fig_dim fig_kernel = Nat.sqrt o /\
     length (fig_tiles fig_kernel) = o /\
     Forall (fun tile => shape tile = [h; w]) (fig_tiles fig_kernel)).
Proof.
  intros Hshape Ho Hh Hw. split.
  - intros Hsq.
    destruct (viz_layer feature_num layer maps kernel) as [figs|] eqn:Hrun;
      [|reflexivity].
    exfalso. apply Hsq.
    destruct (viz_layer_Some _ _ _ _ _ Hrun)
      as (? & fm & ? & ? & fk & _ & _ & _ & _ & _ & ->).
    apply (viz_layer_kernel_figure _ _ _ _ _ _ _ _ _ _ Hrun Hshape Ho Hh Hw).
  - intros fm fk Hrun.
    exact (viz_layer_kernel_figure _ _ _ _ _ _ _ _ _ _ Hrun Hshape Ho Hh Hw).
Qed.

Lemma viz_kernel_grid_witness :
  exists fig_maps fig_kernel,
    viz_layer 0 0 sample_maps sample_kernel = Some [fig_maps; fig_kernel] /\
    fig_dim fig_kernel = Nat.sqrt 4 /\
    length (fig_tiles fig_kernel) = 4 /\
    Forall (fun tile => shape tile = [2; 2]) (fig_tiles fig_kernel).
Proof.
  assert (Hrun : exists fm fk,
             viz_layer 0 0 sample_maps sample_kernel = Some [fm; fk]).
  { vm_compute. eexists. eexists. reflexivity. }
  destruct Hrun as (fm & fk & Hrun). exists fm, fk. split; [exact Hrun|].
  destruct (viz_kernel_grid 0 0 sample_maps sample_kernel 4 2 2 2)
    as [_ Hfig]; [reflexivity | lia | lia | lia |].
  destruct (Hfig fm fk Hrun) as (_ & Hd & Hl & Ha). auto.
Defined.

End KernelIndex.

(** ** The forward hooks of [viz_features] *)

Section HookFacts.

Context {tensor : Type}.

Lemma forward_hooked_outputs (layers : list (@module tensor)) x s :
  outputs (forward_hooked layers x s).2
  = outputs s
    ++ map (fun mx => forward mx.1 mx.2)
           (List.filter (fun mx => hooked mx.1) (layer_inputs layers x)).
Proof.
  revert x s. induction layers as [|m rest IH]; intros x s; simpl.
  - rewrite app_nil_r. reflexivity.
  - rewrite IH. destruct (hooked m); simpl; [|reflexivity].
    rewrite <- app_assoc. reflexivity.
Qed.

Lemma collect_kernels_inputs (layers : list (@module tensor)) x :
  collect_kernels layers
  = map (fun mx => weight mx.1)
        (List.filter (fun mx => hooked mx.1) (layer_inputs layers x)).
Proof.
  unfold collect_kernels. revert x.
  induction layers as [|m rest IH]; intros x; simpl; [reflexivity|].
  destruct (hooked m); simpl; rewrite <- IH; reflexivity.
Qed.

Lemma hooked_inputs_length (layers : list (@module tensor)) x :
  length (List.filter (fun mx => hooked mx.1) (layer_inputs layers x))
  = length (List.filter hooked layers).
Proof.
  revert x. induction layers as [|m rest IH]; intros x; simpl; [reflexivity|].
  destruct (hooked m); simpl; rewrite IH; reflexivity.
Qed.

Lemma combine_map_same {A B C} (f : A -> B) (g : A -> C) (l : list A) :
  combine (map f l) (map g l) = map (fun x => (f x, g x)) l.
Proof. induction l as [|x l IH]; simpl; [|rewrite IH]; reflexivity. Qed.

(** X16.  The capture of [viz_features] pairs every convolutional layer
    with itself: the captured features and the collected kernels both have
    [n_layers] elements, in layer order, and zipping them pairs the output of
    each convolution (on the activations that reach it) with the weight of
    that same convolution; no other layer is captured. *)
Theorem viz_capture_pairs (layers : list (@module tensor)) (image : tensor) :
  let '(n_layers, features, kernels) := viz_capture layers image in
  n_layers = length (List.filter hooked layers) /\
  length features = n_layers /\ length kernels = n_layers /\
  combine features kernels
  = map (fun mx => (forward mx.1 mx.2, weight mx.1))
        (List.filter (fun mx => hooked mx.1) (layer_inputs layers image)).
Proof.
  unfold viz_capture.
  pose proof (forward_hooked_outputs layers image SaveOutput_init) as Hout.
  destruct (forward_hooked layers image SaveOutput_init) as [pred s].
  simpl in Hout. rewrite Hout.
  rewrite (collect_kernels_inputs layers image).
  unfold count_layers.
  rewrite !length_map, hooked_inputs_length, combine_map_same. auto.
Qed.

End HookFacts.

(** ** What [main] writes *)

Section MainFiles.

Context {F : Framework}.
Local Open Scope Q_scope.

Lemma main_restore_files args (test_loader : list batch) (w : World) (s : MainState) :
  main_restore args test_loader w = Some s ->
  files (main_world s) = files w.
Proof.
  unfold main_restore. destruct (Args.restore_model args) as [path|].
  - intros H. apply bind_Some in H as (p & _ & H).
    apply bind_Some in H as (w1 & Hload & H).
    apply bind_Some in H as ([[top1 top5] w2] & Htest & H).
    injection H as <-. simpl.
    apply test_same_but_stdout in Htest as (_ & _ & _ & _ & Hf). simpl in Hf.
    unfold load_state_dict in Hload.
    destruct (same_shape _ _); [|discriminate]. injection Hload as <-.
    simpl in Hf. congruence.
  - intros [= <-]. reflexivity.
Qed.

Lemma record_best_files args (s : MainState) top1 top5 (w : World) :
  (forall path, path <> checkpoint_name args ->
     files (main_world (record_best args s top1 top5 w)) !! path = files w !! path) /\
  (Args.save_model args = false ->
   files (main_world (record_best args s top1 top5 w)) = files w).
Proof.
  unfold record_best.
  destruct (Qltb (best_top1 s) top1); simpl; [|auto].
  destruct (Args.save_model args); simpl; [|auto].
  split; [|discriminate].
  intros path Hpath. unfold torch_save. apply lookup_insert_ne. congruence.
Qed.

Lemma main_epochs_files args train_loader test_loader epochs (s s' : MainState) :
  main_epochs args train_loader test_loader epochs s = Some s' ->
  (forall path, path <> checkpoint_name args ->
     files (main_world s') !! path = files (main_world s) !! path) /\
  (Args.save_model args = false ->
   files (main_world s') = files (main_world s)).
Proof.
  revert s. induction epochs as [|epoch rest IH]; intros s H.
  - injection H as <-. auto.
  - cbn [main_epochs] in H. apply bind_Some in H as (s1 & Hstep & H).
    unfold main_epoch in Hstep.
    apply bind_Some in Hstep as ([[top1 top5] w] & Htrain & Hs1).
    injection Hs1 as <-.
    apply train_files in Htrain.
    destruct (IH _ H) as [IH1 IH2].
    destruct (record_best_files args s top1 top5 w) as [R1 R2].
    split.
    + intros path Hpath. rewrite IH1, R1, Htrain by exact Hpath. reflexivity.
    + intros Hsave. rewrite IH2, R2, Htrain by exact Hsave. reflexivity.
Qed.

(** X17.  Lines 273 to 292 of [main], the part that restores, trains,
    evaluates and checkpoints once the datasets, loaders and model are built,
    change no file other than the checkpoint of the chosen variant, and no
    file at all unless both --train and --save-model are given.  (The dataset
    download at lines 228-236 comes before and is not part of this.) *)
Theorem main_writes_only_checkpoint args (train_loader : nat -> list batch)
  (test_loader : list batch) (w : World) (s : MainState) :
  main args train_loader test_loader w = Some s ->
  (forall path, path <> checkpoint_name args ->
     files (main_world s) !! path = files w !! path) /\
  (Args.train args = false \/ Args.save_model args = false ->
   files (main_world s) = files w).
Proof.
  unfold main. intros H. apply bind_Some in H as (s0 & Hrestore & H).
  apply main_restore_files in Hrestore.
  destruct (Args.train args).
  - apply bind_Some in H as (s1 & Hloop & H). injection H as <-. simpl.
    destruct (main_epochs_files _ _ _ _ _ _ Hloop) as [H1 H2].
    split.
    + intros path Hpath. rewrite H1, Hrestore by exact Hpath. reflexivity.
    + intros [Ht|Hs]; [discriminate|]. rewrite H2, Hrestore by exact Hs.
      reflexivity.
  - injection H as <-. split; [|auto]. intros path _. rewrite Hrestore.
    reflexivity.
Qed.

(** What [train] returns is what any model holding the returned parameters
    evaluates to. *)
Lemma train_result_of_params (w w' : World) (train_loader test_loader : list batch)
  epoch r :
  train w train_loader test_loader epoch = Some (r, w') ->
  forall w2 : World, state_dict w2 = state_dict w' ->
    option_map fst (test w2 test_loader) = Some r.
Proof.
  unfold train. intros H w2 Hp.
  apply bind_Some in H as (s & _ & Htest).
  pose proof (test_same_but_stdout _ _ _ _ Htest) as (Hsd & _). simpl in Hsd.
  rewrite (test_result_params_only w2 (train_world s)) by congruence.
  rewrite Htest. reflexivity.
Qed.

Lemma main_epochs_checkpoint args train_loader test_loader epochs (s s' : MainState) :
  main_epochs args train_loader test_loader epochs s = Some s' ->
  Args.save_model args = true ->
  (best_top1 s' = best_top1 s /\ best_top5 s' = best_top5 s /\
   files (main_world s') = files (main_world s)) \/
  (best_top1 s < best_top1 s' /\
   exists p, files (main_world s') !! checkpoint_name args = Some p /\
             forall w2 : World, state_dict w2 = p ->
               option_map fst (test w2 test_loader)
               = Some (best_top1 s', best_top5 s')).
Proof.
  intros Hrun Hsave. revert s Hrun.
  induction epochs as [|epoch rest IH]; intros s H.
  - injection H as <-. auto.
  - cbn [main_epochs] in H. apply bind_Some in H as (s1 & Hstep & H).
    unfold main_epoch in Hstep.
    apply bind_Some in Hstep as ([[top1 top5] w] & Htrain & Hs1).
    injection Hs1 as <-.
    pose proof (train_files _ _ _ _ _ _ Htrain) as Hfiles.
    pose proof (train_result_of_params _ _ _ _ _ _ Htrain) as Hrepro.
    destruct (Qlt_le_dec (best_top1 s) top1) as [Hlt|Hle].
    + destruct (record_best_improve args s top1 top5 w Hlt) as (H1 & H5 & Hp & Hf).
      rewrite Hsave in Hf. right.
      destruct (IH _ H) as [(E1 & E5 & Ef)|(Hlt' & p & Hp' & Hall)].
      * split; [rewrite E1, H1; exact Hlt|].
        exists (state_dict w). split.
        -- rewrite Ef, Hf. unfold torch_save. apply lookup_insert_eq.
        -- intros w2 Hw2. rewrite E1, E5, H1, H5. apply Hrepro. exact Hw2.
      * split; [|eauto]. rewrite H1 in Hlt'. eapply Qlt_trans; eassumption.
    + rewrite record_best_keep in H by exact Hle.
      destruct (IH _ H) as [(E1 & E5 & Ef)|(Hlt' & Hrest)]; simpl in *.
      * left. repeat split; congruence.
      * right. split; assumption.
Qed.

(** X18.  Under --save-model, once an epoch of the loop has improved the
    record, the checkpoint file holds parameters that evaluate to exactly the
    recorded best: any model restored from it returns (best_top1, best_top5)
    from [test]. *)
Theorem checkpoint_reproduces_best args (train_loader : nat -> list batch)
  (test_loader : list batch) (epochs : list nat) (s s' : MainState) :
  main_epochs args train_loader test_loader epochs s = Some s' ->
  Args.save_model args = true ->
  best_top1 s < best_top1 s' ->
  exists p,
    torch_load (checkpoint_name args) (files (main_world s')) = Some p /\
    forall w2 : World, state_dict w2 = p ->
      option_map fst (test w2 test_loader) = Some (best_top1 s', best_top5 s').
Proof.
  intros Hrun Hsave Hlt.
  destruct (main_epochs_checkpoint _ _ _ _ _ _ Hrun Hsave)
    as [(E1 & _)|(_ & Hp)]; [|exact Hp].
  rewrite E1 in Hlt. exfalso. exact (Qlt_irrefl _ Hlt).
Qed.

End MainFiles.

Lemma main_writes_only_checkpoint_witness :
  exists s,
    main toy_args toy_train_loader toy_test_loader toy_world = Some s /\
    forall path, path <> checkpoint_name toy_args ->
      files (main_world s) !! path = files toy_world !! path.
Proof.
  assert (Hrun : exists s,
             main toy_args toy_train_loader toy_test_loader toy_world = Some s).
  { vm_compute. eexists. reflexivity. }
  destruct Hrun as [s Hrun]. exists s. split; [exact Hrun|].
  apply (main_writes_only_checkpoint toy_args toy_train_loader toy_test_loader
           toy_world s Hrun).
Defined.

Lemma checkpoint_reproduces_best_witness :
  let s0 := {| main_world := toy_world; best_top1 := 0; best_top5 := 0 |} in
  exists s' p,
    main_epochs toy_args toy_train_loader toy_test_loader [1; 2]%nat s0 = Some s' /\
    torch_load (checkpoint_name toy_args) (files (main_world s')) = Some p /\
    option_map fst (test (set_state_dict p toy_world) toy_test_loader)
    = Some (best_top1 s', best_top5 s').
Proof.
  intros s0.
  assert (Hrun : exists s',
             main_epochs toy_args toy_train_loader toy_test_loader [1; 2]%nat s0
             = Some s' /\ (best_top1 s0 < best_top1 s')%Q).
  { vm_compute. eexists. split; reflexivity. }
  destruct Hrun as (s' & Hrun & Hlt).
  destruct (checkpoint_reproduces_best toy_args toy_train_loader toy_test_loader
              [1; 2]%nat s0 s' Hrun eq_refl Hlt) as (p & Hp & Hall).
  exists s', p. split; [exact Hrun|]. split; [exact Hp|].
  apply Hall. reflexivity.
Defined.

(** ** The recorded best over a run *)

Section BestIsMax.

Context {F : Framework}.
Local Open Scope Q_scope.

Lemma fold_Qmax_compat (l : list Q) (a b : Q) :
  a == b -> fold_left Qmax l a == fold_left Qmax l b.
Proof.
  revert a b. induction l as [|x l IH]; intros a b E; simpl; [exact E|].
  apply IH. rewrite E. reflexivity.
Qed.

Lemma record_best_max args (s : MainState) top1 top5 (w : World) :
  best_top1 (record_best args s top1 top5 w) == Qmax (best_top1 s) top1.
Proof.
  destruct (Qlt_le_dec (best_top1 s) top1) as [Hlt|Hle].
  - destruct (record_best_improve args s top1 top5 w Hlt) as (-> & _).
    symmetry. apply Q.max_r. apply Qlt_le_weak. exact Hlt.
  - rewrite record_best_keep by exact Hle. simpl.
    symmetry. apply Q.max_l. exact Hle.
Qed.

(** X19.  After the epoch loop the recorded best top1 is the maximum of the
    record the loop started with (0, or the restored model's top1) and the
    top1 of every epoch run. *)
Theorem best_top1_is_maximum args (train_loader : nat -> list batch)
  (test_loader : list batch) (epochs : list nat) (s s' : MainState) :
  main_epochs args train_loader test_loader epochs s = Some s' ->
  best_top1 s'
  == fold_left Qmax
       (map (fun r => r.1.1)
            (epoch_results args train_loader test_loader epochs s))
       (best_top1 s).
Proof.
  revert s. induction epochs as [|epoch rest IH]; intros s H.
  - injection H as <-. reflexivity.
  - cbn [main_epochs] in H. apply bind_Some in H as (s1 & Hstep & H).
    unfold main_epoch in Hstep.
    apply bind_Some in Hstep as ([[top1 top5] w] & Htrain & Hs1).
    injection Hs1 as <-.
    cbn [epoch_results]. rewrite Htrain. simpl.
    rewrite (IH _ H). apply fold_Qmax_compat. apply record_best_max.
Qed.

End BestIsMax.

Lemma best_top1_is_maximum_witness :
  let s0 := {| main_world := toy_world; best_top1 := 0; best_top5 := 0 |} in
  exists s',
    main_epochs toy_args toy_train_loader toy_test_loader [1; 2]%nat s0 = Some s' /\
    (best_top1 s'
     == fold_left Qmax
          (map (fun r => r.1.1)
               (epoch_results toy_args toy_train_loader toy_test_loader
                  [1; 2]%nat s0))
          (best_top1 s0))%Q.
Proof.
  intros s0.
  assert (Hrun : exists s',
             main_epochs toy_args toy_train_loader toy_test_loader [1; 2]%nat s0
             = Some s').
  { vm_compute. eexists. reflexivity. }
  destruct Hrun as (s' & Hrun). exists s'. split; [exact Hrun|].
  apply (best_top1_is_maximum toy_args toy_train_loader toy_test_loader
           [1; 2]%nat s0 s' Hrun).
Defined.
